(** * kraken: the persisted-retry contracts and the agent bootstrap

    Sources embedded here:
    - [lib/persistedretry/interfaces.go]: the [Task], [Store] and [Executor]
      interface declarations;
    - [agent/cmd/cmd.go]: [Flags], [Run] and [heartbeat]. *)

From Stdlib Require Import List String Ascii Bool ZArith Lia Arith DecimalString.
From ITree Require Import ITree ITreeFacts Events.State Events.StateFacts Props.Infinite.
From Paco Require Import paco.
Import ListNotations.

Local Open Scope string_scope.
Local Open Scope list_scope.

(* ===================================================================== *)
(** * Part I.  Definitions                                                *)
(* ===================================================================== *)

(** ** 1. Go interface declarations ([lib/persistedretry/interfaces.go])

    An interface declaration is a list of method signatures.  The types
    occurring in the three declarations are the interface type [Task], the
    slice type [[]Task] and the predeclared [error]. *)

Inductive gotype : Type :=
| TTask                       (* Task *)
| TError                      (* error *)
| TSlice (elem : gotype).     (* []elem *)

Fixpoint gotype_eqb (a b : gotype) : bool :=
  match a, b with
  | TTask, TTask => true
  | TError, TError => true
  | TSlice a', TSlice b' => gotype_eqb a' b'
  | _, _ => false
  end.

Fixpoint gotypes_eqb (l1 l2 : list gotype) : bool :=
  match l1, l2 with
  | [], [] => true
  | a :: l1', b :: l2' => gotype_eqb a b && gotypes_eqb l1' l2'
  | _, _ => false
  end.

(** A method signature: [name(params...) (results...)]. *)
Record method : Type := Method {
  m_name : string;
  m_params : list gotype;
  m_results : list gotype
}.

Definition method_eqb (m1 m2 : method) : bool :=
  String.eqb (m_name m1) (m_name m2)
  && gotypes_eqb (m_params m1) (m_params m2)
  && gotypes_eqb (m_results m1) (m_results m2).

Definition interface : Type := list method.

(** [type Task interface{}] *)
Definition Task : interface := [].

(** [type Store interface { ... }] *)
Definition Store : interface :=
  [ Method "GetFailed" [] [TSlice TTask; TError];
    Method "GetPending" [] [TSlice TTask; TError];
    Method "MarkPending" [TTask] [TError];
    Method "MarkFailed" [TTask] [TError];
    Method "MarkDone" [TTask] [TError];
    Method "Close" [] [TError] ].

(** [type Executor interface { Exec(Task) error }] *)
Definition Executor : interface :=
  [ Method "Exec" [TTask] [TError] ].

(** Names of the operations an interface requires. *)
Definition method_names (i : interface) : list string := List.map m_name i.

(** Signature of the operation called [name], when the interface has one. *)
Definition lookup_method (name : string) (i : interface) : option method :=
  find (fun m => String.eqb (m_name m) name) i.

(** Go's satisfaction rule: a type whose method set is [ms] can be used as a
    value of interface [i] when [ms] has every method of [i], with the same
    name and signature. *)
Definition has_method (ms : list method) (m : method) : bool :=
  existsb (method_eqb m) ms.

Definition implements (ms : list method) (i : interface) : bool :=
  forallb (has_method ms) i.

(** The operations of an interface whose only result is an [error]. *)
Definition returns_only_error (m : method) : bool :=
  gotypes_eqb (m_results m) [TError].

Definition error_only_methods (i : interface) : list string :=
  method_names (filter returns_only_error i).

(** ** 2. The agent bootstrap ([agent/cmd/cmd.go])

    [Run] is modelled as the control flow of the calling goroutine: a sequence
    of calls into collaborators, each recorded as an [event] of a trace, whose
    answers are supplied by a [World].  A call that the source treats as
    fallible answers with Go's [error] (absent for [nil]).  Goroutines started
    with [go] are recorded as [Go] events; what they do concurrently is not
    part of this trace ([heartbeat] is modelled on its own below). *)

(** A non-nil Go [error], by its message. *)
Definition error : Type := string.

(** [type Flags struct] *)
Record Flags : Type := mkFlags {
  PeerIP : string;
  PeerPort : Z;
  AgentServerPort : Z;
  AgentRegistryPort : Z;
  ConfigFile : string;
  Zone : string;
  KrakenCluster : string;
  SecretsFile : string
}.

Definition set_PeerIP (flags : Flags) (ip : string) : Flags :=
  mkFlags ip (PeerPort flags) (AgentServerPort flags) (AgentRegistryPort flags)
          (ConfigFile flags) (Zone flags) (KrakenCluster flags) (SecretsFile flags).

(** The value a [panic] carries: [panic("...")] or [panic(err)]. *)
Inductive panic_value : Type :=
| PanicString (s : string)
| PanicError (e : error).

(** How a call of [Run] can end: by returning to its caller, by a panic that
    unwinds through the caller, or by [log.Fatal]/[log.Fatalf], which logs the
    message and exits the process. *)
Inductive outcome : Type :=
| Returned
| Panicked (v : panic_value)
| Exited (msg : string).

(** Functions started with [go]. *)
Inductive goroutine : Type :=
| GoEmitVersion                      (* go metrics.EmitVersion(stats) *)
| GoTrackersMonitor                  (* go trackers.Monitor(nil) *)
| GoAgentServer (addr : string)      (* go func() { log.Fatal(http.ListenAndServe(addr, ...)) }() *)
| GoRegistry                         (* go func() { log.Fatal(registry.ListenAndServe()) }() *)
| GoHeartbeat.                       (* go heartbeat(stats) *)

(** Calls registered with [defer]. *)
Inductive deferred_call : Type :=
| DeferZlogSync                      (* defer zlog.Sync() *)
| DeferCloserClose.                  (* defer closer.Close() *)

(** [fmt.Sprintf("%d", n)] *)
Definition sprint_int (n : Z) : string :=
  DecimalString.NilZero.string_of_int (Z.to_int n).

(** [fmt.Sprint(err)] of an [error] value, [nil] included. *)
Definition sprint_error (err : option error) : string :=
  match err with
  | Some e => e
  | None => "<nil>"
  end.

(** The two files [Run] removes before starting nginx. *)
Definition old_nginx_logs : list string :=
  [ "/var/log/kraken/kraken-agent/nginx-access.log";
    "/var/log/kraken/kraken-agent/nginx-error.log" ].

Section AgentCmd.

(** [Config] is declared in [agent/cmd/config.go], which is not part of the
    sources at hand: it is a parameter, with the zero value that
    [var config Config] gives it. *)
Context {Config : Type}.
Variable zeroConfig : Config.

Inductive event : Type :=
| CallLoad (filename : string) (config : Config)     (* configutil.Load(filename, &config) *)
| CallConfigureLogger (config : Config)              (* log.ConfigureLogger(config.ZapLogging) *)
| CallMetricsNew (config : Config) (cluster : string)(* metrics.New(config.Metrics, cluster) *)
| Go (g : goroutine)
| CallGetLocalIP                                     (* netutil.GetLocalIP() *)
| CallNewPeerContext (config : Config) (zone cluster ip : string) (port : Z)
| CallNewCADownloadStore (config : Config)           (* store.NewCADownloadStore *)
| CallNewProducer (config : Config)                  (* networkevent.NewProducer *)
| CallTrackerBuild (config : Config)                 (* config.Tracker.Build() *)
| CallTLSBuildClient (config : Config)               (* config.TLS.BuildClient() *)
| CallNewAgentScheduler (config : Config)            (* scheduler.NewAgentScheduler *)
| CallBuildIndexBuild (config : Config)              (* config.BuildIndex.Build() *)
| CallNewClusterClient                               (* tagclient.NewClusterClient *)
| CallNewReadOnlyTransferer                          (* transfer.NewReadOnlyTransferer *)
| CallRegistryBuild (config : Config)                (* config.Registry.Build(...) *)
| CallAgentServerNew (config : Config)               (* agentserver.New *)
| LogInfo (msg : string)                             (* log.Info, log.Infof *)
| LogWarn (msg : string)                             (* log.Warnf *)
| CallRemove (name : string)                         (* os.Remove(name) *)
| CallNginxRun (config : Config) (port : Z)          (* nginx.Run(config.Nginx, ..., nginx.WithTLS(config.TLS)) *)
| RunDeferred (d : deferred_call).

(** The answers of the collaborators. *)
Record World : Type := {
  configutil_Load : string -> Config -> error + Config;
  metrics_New : Config -> string -> option error;
  netutil_GetLocalIP : error + string;
  core_NewPeerContext : Config -> string -> string -> string -> Z -> option error;
  store_NewCADownloadStore : Config -> option error;
  networkevent_NewProducer : Config -> option error;
  Tracker_Build : Config -> option error;
  TLS_BuildClient : Config -> option error;
  scheduler_NewAgentScheduler : Config -> option error;
  BuildIndex_Build : Config -> option error;
  Registry_Build : Config -> option error;
  os_Remove : string -> option error;
  os_IsNotExist : error -> bool;
  nginx_Run : Config -> Z -> option error
}.

(** *** A small monad for the body of [Run]

    The state is the trace so far and the stack of deferred calls; a
    computation either goes on with a value or stops the function. *)

Inductive abort : Type :=
| APanic (v : panic_value)
| AFatal (msg : string).

Record proc_state : Type := mkProc {
  trace : list event;
  defers : list deferred_call      (* most recently deferred first *)
}.

Definition M (A : Type) : Type := proc_state -> proc_state * (abort + A).

Definition ret {A} (a : A) : M A := fun st => (st, inr a).

Definition bind {A B} (c : M A) (k : A -> M B) : M B :=
  fun st =>
    match c st with
    | (st', inr a) => k a st'
    | (st', inl ab) => (st', inl ab)
    end.

Definition emit (ev : event) : M unit :=
  fun st => (mkProc (trace st ++ [ev]) (defers st), inr tt).

(** A call into a collaborator: the event, then the world's answer. *)
Definition call {A} (ev : event) (answer : A) : M A :=
  bind (emit ev) (fun _ => ret answer).

Definition defer (d : deferred_call) : M unit :=
  fun st => (mkProc (trace st) (d :: defers st), inr tt).

Definition panic {A} (v : panic_value) : M A :=
  fun st => (st, inl (APanic v)).

(** [log.Fatal(args)] *)
Definition log_Fatal {A} (msg : string) : M A :=
  fun st => (st, inl (AFatal msg)).

(** [log.Fatalf(format, err)] for a format that ends in [%s]. *)
Definition log_Fatalf {A} (prefix : string) (err : error) : M A :=
  log_Fatal (prefix ++ err).

(** [if err != nil { log.Fatalf(prefix + "%s", err) }] *)
Definition fatal_if_err (prefix : string) (err : option error) : M unit :=
  match err with
  | Some e => log_Fatalf prefix e
  | None => ret tt
  end.

(** [if err != nil { panic(err) }] after [configutil.Load]. *)
Definition panic_if_err (r : error + Config) : M Config :=
  match r with
  | inl e => panic (PanicError e)
  | inr config => ret config
  end.

Fixpoint for_each {A} (l : list A) (body : A -> M unit) : M unit :=
  match l with
  | [] => ret tt
  | a :: l' => bind (body a) (fun _ => for_each l' body)
  end.

(** Running a function body to its end.  Deferred calls run, last deferred
    first, when the function returns or panics; [log.Fatal] exits the
    process without running them. *)
Definition run_to_completion (body : M unit) : list event * outcome :=
  match body (mkProc [] []) with
  | (st, inr _) => (trace st ++ List.map RunDeferred (defers st), Returned)
  | (st, inl (APanic v)) => (trace st ++ List.map RunDeferred (defers st), Panicked v)
  | (st, inl (AFatal msg)) => (trace st, Exited msg)
  end.

End AgentCmd.

Arguments event : clear implicits.
Arguments World : clear implicits.
Arguments M : clear implicits.
Arguments proc_state : clear implicits.

Declare Scope proc_scope.
Delimit Scope proc_scope with proc.
Notation "x <- c ;; k" := (bind c (fun x => k))
  (at level 61, c at next level, right associativity) : proc_scope.
Notation "c ;; k" := (bind c (fun _ => k))
  (at level 61, right associativity) : proc_scope.

Section Run.

Context {Config : Type}.
Variable zeroConfig : Config.
Variable w : World Config.

Local Open Scope proc_scope.

(** [if flags.X == 0 { panic(msg) }] *)
Definition require_port (port : Z) (msg : string) : M Config unit :=
  if (port =? 0)%Z then panic (PanicString msg) else ret tt.

(** Lines 85-93: the configuration file, then the secrets file. *)
Definition load_config (flags : Flags) : M Config Config :=
  r <- call (CallLoad (ConfigFile flags) zeroConfig)
            (configutil_Load w (ConfigFile flags) zeroConfig) ;;
  config <- panic_if_err r ;;
  if negb (String.eqb (SecretsFile flags) "") then
    r <- call (CallLoad (SecretsFile flags) config)
              (configutil_Load w (SecretsFile flags) config) ;;
    panic_if_err r
  else ret config.

(** Lines 106-112: the peer IP defaults to the local IP. *)
Definition resolve_peer_ip (flags : Flags) : M Config Flags :=
  if String.eqb (PeerIP flags) "" then
    r <- call CallGetLocalIP (netutil_GetLocalIP w) ;;
    match r with
    | inl e => log_Fatalf "Error getting local ip: " e
    | inr localIP => ret (set_PeerIP flags localIP)
    end
  else ret flags.

(** Lines 177-184: wipe the log files of the old nginx process. *)
Definition remove_old_logs : M Config unit :=
  for_each old_nginx_logs (fun name =>
    err <- call (CallRemove name) (os_Remove w name) ;;
    match err with
    | Some e =>
        if negb (os_IsNotExist w e)
        then emit (LogWarn ("Could not remove old root-owned nginx log: " ++ e))
        else ret tt
    | None => ret tt
    end).

(** The body of [func Run(flags *Flags)]. *)
Definition Run_body (flags : Flags) : M Config unit :=
  require_port (PeerPort flags) "must specify non-zero peer port" ;;
  require_port (AgentServerPort flags) "must specify non-zero agent server port" ;;
  require_port (AgentRegistryPort flags) "must specify non-zero agent registry port" ;;
  config <- load_config flags ;;
  call (CallConfigureLogger config) tt ;;
  defer DeferZlogSync ;;
  err <- call (CallMetricsNew config (KrakenCluster flags))
              (metrics_New w config (KrakenCluster flags)) ;;
  fatal_if_err "Failed to init metrics: " err ;;
  defer DeferCloserClose ;;
  emit (Go GoEmitVersion) ;;
  flags <- resolve_peer_ip flags ;;
  err <- call (CallNewPeerContext config (Zone flags) (KrakenCluster flags)
                                  (PeerIP flags) (PeerPort flags))
              (core_NewPeerContext w config (Zone flags) (KrakenCluster flags)
                                   (PeerIP flags) (PeerPort flags)) ;;
  fatal_if_err "Failed to create peer context: " err ;;
  err <- call (CallNewCADownloadStore config) (store_NewCADownloadStore w config) ;;
  fatal_if_err "Failed to create local store: " err ;;
  err <- call (CallNewProducer config) (networkevent_NewProducer w config) ;;
  fatal_if_err "Failed to create network event producer: " err ;;
  err <- call (CallTrackerBuild config) (Tracker_Build w config) ;;
  fatal_if_err "Error building tracker upstream: " err ;;
  emit (Go GoTrackersMonitor) ;;
  err <- call (CallTLSBuildClient config) (TLS_BuildClient w config) ;;
  fatal_if_err "Error building client tls config: " err ;;
  err <- call (CallNewAgentScheduler config) (scheduler_NewAgentScheduler w config) ;;
  fatal_if_err "Error creating scheduler: " err ;;
  err <- call (CallBuildIndexBuild config) (BuildIndex_Build w config) ;;
  fatal_if_err "Error building build-index upstream: " err ;;
  emit CallNewClusterClient ;;
  emit CallNewReadOnlyTransferer ;;
  err <- call (CallRegistryBuild config) (Registry_Build w config) ;;
  fatal_if_err "Failed to init registry: " err ;;
  emit (CallAgentServerNew config) ;;
  let addr := (":" ++ sprint_int (AgentServerPort flags))%string in
  emit (LogInfo ("Starting agent server on " ++ addr)) ;;
  emit (Go (GoAgentServer addr)) ;;
  emit (LogInfo "Starting registry...") ;;
  emit (Go GoRegistry) ;;
  emit (Go GoHeartbeat) ;;
  remove_old_logs ;;
  err <- call (CallNginxRun config (AgentRegistryPort flags))
              (nginx_Run w config (AgentRegistryPort flags)) ;;
  log_Fatal (sprint_error err).

(** [Run]: its trace and how it ends.  [flags] stands for the struct behind
    the non-nil pointer that [ParseFlags] returns; [nginx.Run] is taken to
    come back with the [error] value the world supplies. *)
Definition Run (flags : Flags) : list (event Config) * outcome :=
  run_to_completion (Run_body flags).

(** *** Vocabulary for statements about [Run] *)

(** The world's answer to a construction step, when the step failed. *)
Definition failure_of (ev : event Config) : option error :=
  match ev with
  | CallLoad filename config =>
      match configutil_Load w filename config with
      | inl e => Some e
      | inr _ => None
      end
  | CallMetricsNew config cluster => metrics_New w config cluster
  | CallGetLocalIP =>
      match netutil_GetLocalIP w with
      | inl e => Some e
      | inr _ => None
      end
  | CallNewPeerContext config zone cluster ip port =>
      core_NewPeerContext w config zone cluster ip port
  | CallNewCADownloadStore config => store_NewCADownloadStore w config
  | CallNewProducer config => networkevent_NewProducer w config
  | CallTrackerBuild config => Tracker_Build w config
  | CallTLSBuildClient config => TLS_BuildClient w config
  | CallNewAgentScheduler config => scheduler_NewAgentScheduler w config
  | CallBuildIndexBuild config => BuildIndex_Build w config
  | CallRegistryBuild config => Registry_Build w config
  | _ => None
  end.

(** How [Run] ends when the step [ev] fails with [e]. *)
Definition abort_of (ev : event Config) (e : error) : outcome :=
  match ev with
  | CallLoad _ _ => Panicked (PanicError e)
  | CallMetricsNew _ _ => Exited ("Failed to init metrics: " ++ e)
  | CallGetLocalIP => Exited ("Error getting local ip: " ++ e)
  | CallNewPeerContext _ _ _ _ _ => Exited ("Failed to create peer context: " ++ e)
  | CallNewCADownloadStore _ => Exited ("Failed to create local store: " ++ e)
  | CallNewProducer _ => Exited ("Failed to create network event producer: " ++ e)
  | CallTrackerBuild _ => Exited ("Error building tracker upstream: " ++ e)
  | CallTLSBuildClient _ => Exited ("Error building client tls config: " ++ e)
  | CallNewAgentScheduler _ => Exited ("Error creating scheduler: " ++ e)
  | CallBuildIndexBuild _ => Exited ("Error building build-index upstream: " ++ e)
  | CallRegistryBuild _ => Exited ("Failed to init registry: " ++ e)
  | _ => Returned
  end.

(** A trace in which the first failed step is the last event, and the
    function ends as that step prescribes. *)
Fixpoint stops_at_first_failure (tr : list (event Config)) (out : outcome) : Prop :=
  match tr with
  | [] => True
  | ev :: rest =>
      match failure_of ev with
      | Some e => rest = [] /\ out = abort_of ev e
      | None => stops_at_first_failure rest out
      end
  end.

End Run.

(** The three messages of the port checks. *)
Definition port_panics : list string :=
  [ "must specify non-zero peer port";
    "must specify non-zero agent server port";
    "must specify non-zero agent registry port" ].

Definition ports_set (flags : Flags) : Prop :=
  PeerPort flags <> 0%Z /\ AgentServerPort flags <> 0%Z /\ AgentRegistryPort flags <> 0%Z.

(** The [configutil.Load] calls of a trace, in order. *)
Definition is_load {Config} (ev : event Config) : bool :=
  match ev with
  | CallLoad _ _ => true
  | _ => false
  end.

Definition loads {Config} (tr : list (event Config)) : list (event Config) :=
  filter is_load tr.

(** ** 3. The heartbeat loop ([agent/cmd/cmd.go], lines 197-202)

    [heartbeat] talks to a metrics scope and to the clock and has no exit:
    it is an interaction tree over these two calls, built with the
    library's [ITree.forever]. *)

(** [time.Second], in nanoseconds, the unit of [time.Duration]. *)
Definition Second : Z := 1000000000.

Section Heartbeat.

(** [tally.Scope] belongs to an external package: a parameter. *)
Context {Scope : Type}.

Variant heartbeatE : Type -> Type :=
| CounterInc (stats : Scope) (name : string) (delta : Z) : heartbeatE unit
      (* stats.Counter(name).Inc(delta) *)
| Sleep (d : Z) : heartbeatE unit.
      (* time.Sleep(d) *)

(** The body of the [for] loop. *)
Definition heartbeat_iteration (stats : Scope) : itree heartbeatE unit :=
  ITree.bind (ITree.trigger (CounterInc stats "heartbeat" 1))
             (fun _ => ITree.trigger (Sleep (10 * Second))).

(** [func heartbeat(stats tally.Scope)]: [for { ... }]. *)
Definition heartbeat (stats : Scope) : itree heartbeatE unit :=
  ITree.forever (heartbeat_iteration stats).

(** [n] iterations of the loop body, one after the other. *)
Fixpoint heartbeat_iterations (stats : Scope) (n : nat) : itree heartbeatE unit :=
  match n with
  | O => Ret tt
  | S n' => ITree.bind (heartbeat_iteration stats)
                       (fun _ => heartbeat_iterations stats n')
  end.

(** What an observer of the two calls sees. *)
Inductive observation : Type :=
| SawInc (stats : Scope) (name : string) (delta : Z)
| SawSleep (d : Z).

(** The observer: every call returns, and is appended to the log. *)
Definition observe_calls : heartbeatE ~> Monads.stateT (list observation) (itree void1) :=
  fun _ e log =>
    match e with
    | CounterInc stats name delta => Ret (log ++ [SawInc stats name delta], tt)
    | Sleep d => Ret (log ++ [SawSleep d], tt)
    end.

(** The log of [n] iterations. *)
Fixpoint heartbeat_log (stats : Scope) (n : nat) : list observation :=
  match n with
  | O => []
  | S n' => SawInc stats "heartbeat" 1 :: SawSleep (10 * Second) :: heartbeat_log stats n'
  end.

Definition is_inc (o : observation) : bool :=
  match o with
  | SawInc _ _ _ => true
  | SawSleep _ => false
  end.

(** Number of increments of the counter in a log. *)
Definition increments (log : list observation) : nat :=
  List.length (filter is_inc log).

End Heartbeat.

(** ** 4. A reference Store and Manager

    [interfaces.go] declares the contracts only; the implementations of
    [Store] and the retry manager are not part of the sources at hand. *)

(** Modelled from the spec: the task status, "Status in {Pending, Failed,
    Done}" (section 3); the concrete task kinds are missing from the
    sources. *)
Inductive Status : Type := Pending | Failed | Done.

Definition Status_eqb (a b : Status) : bool :=
  match a, b with
  | Pending, Pending | Failed, Failed | Done, Done => true
  | _, _ => false
  end.

(** Modelled from the spec: a task with the attributes of section 3, "Key",
    "CreatedAt", "AttemptCount", "LastError", "LastAttemptAt", "Status"; the
    concrete task kinds are missing from the sources. *)
Record TaskRecord : Type := mkTask {
  Key : string;
  CreatedAt : Z;
  AttemptCount : nat;
  LastError : option string;
  LastAttemptAt : option Z;
  TaskStatus : Status
}.

Definition with_status (t : TaskRecord) (st : Status) : TaskRecord :=
  mkTask (Key t) (CreatedAt t) (AttemptCount t) (LastError t) (LastAttemptAt t) st.

(** Modelled from the spec: the two errors a Store returns (section 7), the
    "closed-store error" and the "persistence error"; the Store
    implementation is missing from the sources. *)
Inductive store_error : Type := ErrClosed | ErrPersistence.

(** Modelled from the spec: the state of a Store, "partitioned by status"
    (section 2), with whether [Close] was called and whether "the backing
    store is unavailable" (section 4.2); the Store implementation is missing
    from the sources. *)
Record RefStore : Type := mkStore {
  records : list TaskRecord;
  closed : bool;
  backing_available : bool
}.

Definition has_key (k : string) (t : TaskRecord) : bool := String.eqb (Key t) k.

Definition has_status (st : Status) (t : TaskRecord) : bool := Status_eqb (TaskStatus t) st.

(** Modelled from the spec: "removes/archives the record for the key"; the
    Store implementation is missing from the sources. *)
Definition remove_key (k : string) (l : list TaskRecord) : list TaskRecord :=
  filter (fun t => negb (has_key k t)) l.

(** Modelled from the spec: "upserts", the record "overwriting any prior
    record for the key"; the Store implementation is missing from the
    sources. *)
Definition upsert (t : TaskRecord) (l : list TaskRecord) : list TaskRecord :=
  remove_key (Key t) l ++ [t].

Definition keys (l : list TaskRecord) : list string := List.map Key l.

(** Number of records a store holds for a key. *)
Definition count_key (k : string) (s : RefStore) : nat :=
  List.length (filter (has_key k) (records s)).

(** Modelled from the spec: the guard common to the writing operations, "fails
    with a persistence error if the backing store is unavailable" and, after
    [Close], "subsequent calls fail with a closed-store error" (section 4.2);
    the Store implementation is missing from the sources. *)
Definition write (s : RefStore) (f : list TaskRecord -> list TaskRecord)
  : option store_error * RefStore :=
  if closed s then (Some ErrClosed, s)
  else if negb (backing_available s) then (Some ErrPersistence, s)
  else (None, mkStore (f (records s)) (closed s) (backing_available s)).

(** Modelled from the spec: "GetFailed() -> sequence<Task>: snapshot of all
    Failed tasks", with the error result of the declared signature; the
    Store implementation is missing from the sources. *)
Definition GetFailed (s : RefStore) : list TaskRecord * option store_error :=
  if closed s then ([], Some ErrClosed)
  else (filter (has_status Failed) (records s), None).

(** Modelled from the spec: "GetPending() -> sequence<Task>: snapshot of all
    Pending tasks"; the Store implementation is missing from the sources. *)
Definition GetPending (s : RefStore) : list TaskRecord * option store_error :=
  if closed s then ([], Some ErrClosed)
  else (filter (has_status Pending) (records s), None).

(** Modelled from the spec: "MarkPending(Task): upserts as Pending"; the Store
    implementation is missing from the sources. *)
Definition MarkPending (t : TaskRecord) (s : RefStore) : option store_error * RefStore :=
  write s (upsert (with_status t Pending)).

(** Modelled from the spec: "MarkFailed(Task): upserts as Failed with updated
    attempt metadata, overwriting any prior record for the key"; the Store
    implementation is missing from the sources. *)
Definition MarkFailed (t : TaskRecord) (s : RefStore) : option store_error * RefStore :=
  write s (upsert (with_status t Failed)).

(** Modelled from the spec: "MarkDone(Task): removes/archives the record for
    the key; returns success (not an error) if already absent"; the Store
    implementation is missing from the sources. *)
Definition MarkDone (t : TaskRecord) (s : RefStore) : option store_error * RefStore :=
  write s (remove_key (Key t)).

(** Modelled from the spec: "Close(): scoped release of underlying handles;
    subsequent calls fail with a closed-store error"; the Store
    implementation is missing from the sources. *)
Definition Close (s : RefStore) : option store_error * RefStore :=
  if closed s then (Some ErrClosed, s)
  else (None, mkStore (records s) true (backing_available s)).

(** A store that is open and whose backing store answers. *)
Definition operational (s : RefStore) : Prop :=
  closed s = false /\ backing_available s = true.

(** The store invariant of section 3: a key has at most one record. *)
Definition unique_keys (s : RefStore) : Prop := NoDup (keys (records s)).

(** Modelled from the spec: the state of the Retry Manager of section 4.4,
    the Store it polls, the tasks whose [Exec] call is active (one per busy
    worker) and the current time; the manager is missing from the
    sources. *)
Record ManagerState : Type := mkManager {
  m_store : RefStore;
  in_flight : list TaskRecord;
  now : Z
}.

(** Modelled from the spec: step 3 of section 4.4 on failure, "increment
    AttemptCount", with the error and the time of the attempt; the manager is
    missing from the sources. *)
Definition failed_attempt (t : TaskRecord) (err : string) (at_time : Z) : TaskRecord :=
  mkTask (Key t) (CreatedAt t) (S (AttemptCount t)) (Some err) (Some at_time) Failed.

Section Manager.

(** The configurable parts of section 4.4: the size of the worker pool, the
    backoff policy and the attempt ceiling. *)
Variable N : nat.
Variable backoff : nat -> Z.
Variable max_attempts : option nat.

(** Modelled from the spec: "nextEligible = now + backoff(AttemptCount)",
    computed at the failed attempt; the manager is missing from the
    sources. *)
Definition nextEligible (f : TaskRecord) : Z :=
  match LastAttemptAt f with
  | Some at_time => (at_time + backoff (AttemptCount f))%Z
  | None => CreatedAt f
  end.

(** Modelled from the spec: step 5, "beyond a maximum AttemptCount, a task
    is excluded from further scheduling"; the manager is missing from the
    sources. *)
Definition schedulable (t : TaskRecord) : bool :=
  match max_attempts with
  | Some ceiling => (AttemptCount t <=? ceiling)%nat
  | None => true
  end.

(** Modelled from the spec: step 1, the due set "GetPending() with
    {f in GetFailed() : now >= nextEligible(f)}"; the manager is missing
    from the sources. *)
Definition due (m : ManagerState) : list TaskRecord :=
  filter schedulable
    (fst (GetPending (m_store m))
     ++ filter (fun f => (nextEligible f <=? now m)%Z) (fst (GetFailed (m_store m)))).

Definition key_in_flight (k : string) (m : ManagerState) : bool :=
  existsb (has_key k) (in_flight m).

(** Number of active [Exec] calls for a key. *)
Definition active_execs (k : string) (m : ManagerState) : nat :=
  List.length (filter (has_key k) (in_flight m)).

(** Modelled from the spec: the transitions of section 4.4.  A worker takes
    a due task whose key is not in flight ("a key already in flight is
    skipped until its worker finishes") while the pool has a free worker,
    and [Exec] becomes active; [Exec] ends in success ([MarkDone]) or in
    failure ([MarkFailed]); producers enqueue with [MarkPending]; time
    passes.  Any due task may be taken: the oldest-first order of the spec
    is one way of choosing among these steps.  A Store error leaves the
    Store as it was.  The manager is missing from the sources. *)
Inductive manager_step : ManagerState -> ManagerState -> Prop :=
| step_dispatch m t :
    In t (due m) ->
    key_in_flight (Key t) m = false ->
    (List.length (in_flight m) < N)%nat ->
    manager_step m (mkManager (m_store m) (t :: in_flight m) (now m))
| step_success m t :
    In t (in_flight m) ->
    manager_step m (mkManager (snd (MarkDone t (m_store m)))
                              (remove_key (Key t) (in_flight m)) (now m))
| step_failure m t err :
    In t (in_flight m) ->
    manager_step m (mkManager (snd (MarkFailed (failed_attempt t err (now m)) (m_store m)))
                              (remove_key (Key t) (in_flight m)) (now m))
| step_enqueue m t :
    manager_step m (mkManager (snd (MarkPending t (m_store m))) (in_flight m) (now m))
| step_tick m d :
    (0 <= d)%Z ->
    manager_step m (mkManager (m_store m) (in_flight m) (now m + d)%Z).

(** The states of a manager started on the store [s0] at time [t0]: "on
    start" nothing is in flight. *)
Inductive reachable (s0 : RefStore) (t0 : Z) : ManagerState -> Prop :=
| reach_start : reachable s0 t0 (mkManager s0 [] t0)
| reach_step m m' : reachable s0 t0 m -> manager_step m m' -> reachable s0 t0 m'.

End Manager.

(** The invariant of the worker pool of size [N]: the keys in flight are
    pairwise distinct, and no more tasks are in flight than the pool has
    workers. *)
Definition in_flight_ok (N : nat) (m : ManagerState) : Prop :=
  NoDup (keys (in_flight m)) /\ List.length (in_flight m) <= N.

(** ** Tactics for the symbolic execution of [Run] *)

(** Symbolic execution of [Run]: unfold the body, then split on the flags and
    on the answers of the world, innermost test first. *)
Ltac unfold_run :=
  unfold Run, run_to_completion, Run_body, load_config, resolve_peer_ip,
    remove_old_logs, require_port, fatal_if_err, panic_if_err, call, emit,
    defer, panic, log_Fatalf, log_Fatal, bind, ret, old_nginx_logs, for_each;
  simpl.

Ltac split_run :=
  repeat match goal with
         | |- context [match ?x with _ => _ end] =>
             lazymatch x with
             | context [match _ with _ => _ end] => fail
             | _ => destruct x eqn:?; simpl
             end
         end.

Ltac use_answers :=
  repeat match goal with
         | H : ?x = _ |- context [?x] => rewrite H; simpl
         end.

(** ** 5. Concrete inputs

    A world in which the configuration file ["missing.yaml"] cannot be
    loaded and the tracker upstream cannot be built, over configurations
    that count the files loaded into them; and a set of flags. *)

Definition example_world : World nat := {|
  configutil_Load := fun filename config =>
    if String.eqb filename "missing.yaml" then inl "no such file" else inr (S config);
  metrics_New := fun _ _ => None;
  netutil_GetLocalIP := inr "10.0.0.1";
  core_NewPeerContext := fun _ _ _ _ _ => None;
  store_NewCADownloadStore := fun _ => None;
  networkevent_NewProducer := fun _ => None;
  Tracker_Build := fun _ => Some "no trackers";
  TLS_BuildClient := fun _ => None;
  scheduler_NewAgentScheduler := fun _ => None;
  BuildIndex_Build := fun _ => None;
  Registry_Build := fun _ => None;
  os_Remove := fun _ => None;
  os_IsNotExist := fun _ => false;
  nginx_Run := fun _ _ => None
|}.

Definition example_flags : Flags :=
  mkFlags "" 16001 16002 16003 "agent.yaml" "zone1" "prod01-zone1" "secrets.yaml".

(** Flags whose agent server port was left at its default, and flags that
    name a configuration file the world cannot load. *)
Definition flags_without_server_port : Flags :=
  mkFlags "" 16001 0 16003 "agent.yaml" "zone1" "prod01-zone1" "secrets.yaml".

Definition flags_with_missing_config : Flags :=
  mkFlags "" 16001 16002 16003 "missing.yaml" "zone1" "prod01-zone1" "secrets.yaml".

(** The store of scenario A of the spec, holding the pending task "blob-A";
    the same store after [Close]; and the manager that has just handed
    "blob-A" to a worker. *)
Definition blob_A : TaskRecord := mkTask "blob-A" 0 0 None None Pending.

Definition blob_B : TaskRecord := mkTask "blob-B" 1 0 None None Pending.

Definition store_A : RefStore := mkStore [blob_A] false true.

Definition closed_store_A : RefStore := snd (Close store_A).

Definition manager_A : ManagerState := mkManager store_A [blob_A] 0.

(** ** 6. More vocabulary for the traces of [Run] *)

Definition is_deferred {Config} (ev : event Config) : bool :=
  match ev with
  | RunDeferred _ => true
  | _ => false
  end.

Definition is_go_heartbeat {Config} (ev : event Config) : bool :=
  match ev with
  | Go GoHeartbeat => true
  | _ => false
  end.

Definition is_warn {Config} (ev : event Config) : bool :=
  match ev with
  | LogWarn _ => true
  | _ => false
  end.

Definition is_remove {Config} (ev : event Config) : bool :=
  match ev with
  | CallRemove _ => true
  | _ => false
  end.

(** The goroutines a trace starts, in order. *)
Fixpoint goroutines {Config} (tr : list (event Config)) : list goroutine :=
  match tr with
  | [] => []
  | Go g :: rest => g :: goroutines rest
  | _ :: rest => goroutines rest
  end.

(** The five goroutines of [Run], in the order of the [go] statements. *)
Definition all_goroutines (flags : Flags) : list goroutine :=
  [ GoEmitVersion; GoTrackersMonitor;
    GoAgentServer (":" ++ sprint_int (AgentServerPort flags));
    GoRegistry; GoHeartbeat ].

(** The configuration a collaborator is handed, for the calls that take
    (a part of) [config]; [configutil.Load] fills it and is not among
    them. *)
Definition config_of {Config} (ev : event Config) : option Config :=
  match ev with
  | CallConfigureLogger c | CallMetricsNew c _ | CallNewPeerContext c _ _ _ _
  | CallNewCADownloadStore c | CallNewProducer c | CallTrackerBuild c
  | CallTLSBuildClient c | CallNewAgentScheduler c | CallBuildIndexBuild c
  | CallRegistryBuild c | CallAgentServerNew c | CallNginxRun c _ => Some c
  | _ => None
  end.

(** What the two loads of lines 85-93 make of the zero configuration, when
    neither fails. *)
Definition final_config {Config} (zeroConfig : Config) (w : World Config)
    (flags : Flags) : option Config :=
  match configutil_Load w (ConfigFile flags) zeroConfig with
  | inl _ => None
  | inr config =>
      if negb (String.eqb (SecretsFile flags) "") then
        match configutil_Load w (SecretsFile flags) config with
        | inl _ => None
        | inr config' => Some config'
        end
      else Some config
  end.

(** [err != nil && !os.IsNotExist(err)] for the removal of [name]. *)
Definition removal_warns {Config} (w : World Config) (name : string) : bool :=
  match os_Remove w name with
  | Some e => negb (os_IsNotExist w e)
  | None => false
  end.

(** ** 7. [ParseFlags] ([agent/cmd/cmd.go], lines 52-72)

    The [flag] package belongs to Go's library.  Its part is taken as
    follows: [flag.StringVar] and [flag.IntVar] store the default in the
    variable and define the flag, and panic when the name is already
    defined; [flag.Parse] applies the settings of the command line from left
    to right, and ends the process when a setting names no defined flag or
    carries a value its flag cannot take.  The command line is given as the
    settings the package reads off [os.Args]: a name and a value. *)

(** The variables the flags are bound to: [&flags.PeerIP], ... *)
Inductive string_var : Type :=
| VarPeerIP | VarConfigFile | VarZone | VarKrakenCluster | VarSecretsFile.

Inductive int_var : Type :=
| VarPeerPort | VarAgentServerPort | VarAgentRegistryPort.

Inductive flag_target : Type :=
| StringTarget (p : string_var)
| IntTarget (p : int_var).

Inductive flag_value : Type :=
| StringValue (s : string)
| IntValue (n : Z).

(** [*p = s] *)
Definition set_string (p : string_var) (s : string) (flags : Flags) : Flags :=
  match p with
  | VarPeerIP =>
      mkFlags s (PeerPort flags) (AgentServerPort flags) (AgentRegistryPort flags)
              (ConfigFile flags) (Zone flags) (KrakenCluster flags) (SecretsFile flags)
  | VarConfigFile =>
      mkFlags (PeerIP flags) (PeerPort flags) (AgentServerPort flags) (AgentRegistryPort flags)
              s (Zone flags) (KrakenCluster flags) (SecretsFile flags)
  | VarZone =>
      mkFlags (PeerIP flags) (PeerPort flags) (AgentServerPort flags) (AgentRegistryPort flags)
              (ConfigFile flags) s (KrakenCluster flags) (SecretsFile flags)
  | VarKrakenCluster =>
      mkFlags (PeerIP flags) (PeerPort flags) (AgentServerPort flags) (AgentRegistryPort flags)
              (ConfigFile flags) (Zone flags) s (SecretsFile flags)
  | VarSecretsFile =>
      mkFlags (PeerIP flags) (PeerPort flags) (AgentServerPort flags) (AgentRegistryPort flags)
              (ConfigFile flags) (Zone flags) (KrakenCluster flags) s
  end.

(** [*p = n] *)
Definition set_int (p : int_var) (n : Z) (flags : Flags) : Flags :=
  match p with
  | VarPeerPort =>
      mkFlags (PeerIP flags) n (AgentServerPort flags) (AgentRegistryPort flags)
              (ConfigFile flags) (Zone flags) (KrakenCluster flags) (SecretsFile flags)
  | VarAgentServerPort =>
      mkFlags (PeerIP flags) (PeerPort flags) n (AgentRegistryPort flags)
              (ConfigFile flags) (Zone flags) (KrakenCluster flags) (SecretsFile flags)
  | VarAgentRegistryPort =>
      mkFlags (PeerIP flags) (PeerPort flags) (AgentServerPort flags) n
              (ConfigFile flags) (Zone flags) (KrakenCluster flags) (SecretsFile flags)
  end.

(** [*p] *)
Definition get_target (t : flag_target) (flags : Flags) : flag_value :=
  match t with
  | StringTarget VarPeerIP => StringValue (PeerIP flags)
  | StringTarget VarConfigFile => StringValue (ConfigFile flags)
  | StringTarget VarZone => StringValue (Zone flags)
  | StringTarget VarKrakenCluster => StringValue (KrakenCluster flags)
  | StringTarget VarSecretsFile => StringValue (SecretsFile flags)
  | IntTarget VarPeerPort => IntValue (PeerPort flags)
  | IntTarget VarAgentServerPort => IntValue (AgentServerPort flags)
  | IntTarget VarAgentRegistryPort => IntValue (AgentRegistryPort flags)
  end.

(** A Go [int] on the 64-bit platforms the agent runs on. *)
Definition is_int (n : Z) : bool :=
  ((- 2 ^ 63 <=? n) && (n <? 2 ^ 63))%Z.

(** Storing a value through a flag: a string flag takes any text, an integer
    flag an integer that fits an [int]. *)
Definition set_target (t : flag_target) (v : flag_value) (flags : Flags) : option Flags :=
  match t, v with
  | StringTarget p, StringValue s => Some (set_string p s flags)
  | IntTarget p, IntValue n => if is_int n then Some (set_int p n flags) else None
  | _, _ => None
  end.

(** A defined flag: its name, the variable it is bound to, its usage. *)
Record flag_entry : Type := mkFlagEntry {
  fe_name : string;
  fe_target : flag_target;
  fe_usage : string
}.

(** The flag set [flag.CommandLine], most recently defined flag first. *)
Definition FlagSet : Type := list flag_entry.

Definition find_flag (name : string) (fs : FlagSet) : option flag_entry :=
  find (fun e => String.eqb (fe_name e) name) fs.

(** How [ParseFlags] can end. *)
Inductive parse_result (A : Type) : Type :=
| Parsed (a : A)
| FlagPanic (msg : string)       (* panic: flag redefined *)
| FlagExit.                      (* error or usage message, then os.Exit *)

Arguments Parsed {A} a.
Arguments FlagPanic {A} msg.
Arguments FlagExit {A}.

Definition parse_bind {A B} (r : parse_result A) (k : A -> parse_result B) : parse_result B :=
  match r with
  | Parsed a => k a
  | FlagPanic msg => FlagPanic msg
  | FlagExit => FlagExit
  end.

(** Defining a flag: [flag.Var] panics when the name is taken. *)
Definition define_flag (t : flag_target) (name usage : string)
    (st : FlagSet * Flags) : parse_result (FlagSet * Flags) :=
  match find_flag name (fst st) with
  | Some _ => FlagPanic ("flag redefined: " ++ name)
  | None => Parsed (mkFlagEntry name t usage :: fst st, snd st)
  end.

(** [flag.StringVar(p, name, value, usage)]: [*p = value], then the flag is
    defined. *)
Definition flag_StringVar (p : string_var) (name value usage : string)
    (st : FlagSet * Flags) : parse_result (FlagSet * Flags) :=
  define_flag (StringTarget p) name usage (fst st, set_string p value (snd st)).

(** [flag.IntVar(p, name, value, usage)] *)
Definition flag_IntVar (p : int_var) (name : string) (value : Z) (usage : string)
    (st : FlagSet * Flags) : parse_result (FlagSet * Flags) :=
  define_flag (IntTarget p) name usage (fst st, set_int p value (snd st)).

(** One setting of the command line. *)
Definition apply_setting (fs : FlagSet) (setting : string * flag_value)
    (flags : Flags) : parse_result Flags :=
  match find_flag (fst setting) fs with
  | None => FlagExit
  | Some e =>
      match set_target (fe_target e) (snd setting) flags with
      | Some flags' => Parsed flags'
      | None => FlagExit
      end
  end.

(** [flag.Parse()] *)
Fixpoint flag_Parse (fs : FlagSet) (settings : list (string * flag_value))
    (flags : Flags) : parse_result Flags :=
  match settings with
  | [] => Parsed flags
  | setting :: rest =>
      parse_bind (apply_setting fs setting flags) (flag_Parse fs rest)
  end.

(** [var flags Flags] *)
Definition zeroFlags : Flags := mkFlags "" 0 0 0 "" "" "" "".

(** [func ParseFlags() *Flags], on the settings of the command line. *)
Definition ParseFlags (settings : list (string * flag_value)) : parse_result Flags :=
  parse_bind (flag_StringVar VarPeerIP "peer-ip" ""
                "ip which peer will announce itself as" ([], zeroFlags)) (fun st =>
  parse_bind (flag_IntVar VarPeerPort "peer-port" 0
                "port which peer will announce itself as" st) (fun st =>
  parse_bind (flag_IntVar VarAgentServerPort "agent-server-port" 0
                "port which agent server listens on" st) (fun st =>
  parse_bind (flag_IntVar VarAgentRegistryPort "agent-registry-port" 0
                "port which agent registry listens on" st) (fun st =>
  parse_bind (flag_StringVar VarConfigFile "config" ""
                "configuration file path" st) (fun st =>
  parse_bind (flag_StringVar VarZone "zone" ""
                "zone/datacenter name" st) (fun st =>
  parse_bind (flag_StringVar VarKrakenCluster "cluster" ""
                "cluster name (e.g. prod01-zone1)" st) (fun st =>
  parse_bind (flag_StringVar VarSecretsFile "secrets" ""
                "path to a secrets YAML file to load into configuration" st) (fun st =>
  flag_Parse (fst st) settings (snd st))))))))).

(** The flags of the agent, as [ParseFlags] defines them: name, variable and
    default. *)
Definition agent_flags : list (string * flag_target * flag_value) :=
  [ ("peer-ip", StringTarget VarPeerIP, StringValue "");
    ("peer-port", IntTarget VarPeerPort, IntValue 0);
    ("agent-server-port", IntTarget VarAgentServerPort, IntValue 0);
    ("agent-registry-port", IntTarget VarAgentRegistryPort, IntValue 0);
    ("config", StringTarget VarConfigFile, StringValue "");
    ("zone", StringTarget VarZone, StringValue "");
    ("cluster", StringTarget VarKrakenCluster, StringValue "");
    ("secrets", StringTarget VarSecretsFile, StringValue "") ].

(** The flag set once the eight flags are defined. *)
Definition agent_flagset : FlagSet :=
  [ mkFlagEntry "secrets" (StringTarget VarSecretsFile)
                "path to a secrets YAML file to load into configuration";
    mkFlagEntry "cluster" (StringTarget VarKrakenCluster)
                "cluster name (e.g. prod01-zone1)";
    mkFlagEntry "zone" (StringTarget VarZone) "zone/datacenter name";
    mkFlagEntry "config" (StringTarget VarConfigFile) "configuration file path";
    mkFlagEntry "agent-registry-port" (IntTarget VarAgentRegistryPort)
                "port which agent registry listens on";
    mkFlagEntry "agent-server-port" (IntTarget VarAgentServerPort)
                "port which agent server listens on";
    mkFlagEntry "peer-port" (IntTarget VarPeerPort)
                "port which peer will announce itself as";
    mkFlagEntry "peer-ip" (StringTarget VarPeerIP)
                "ip which peer will announce itself as" ].

(** The last value the command line gives to a flag, if any. *)
Fixpoint last_setting (name : string) (settings : list (string * flag_value))
  : option flag_value :=
  match settings with
  | [] => None
  | (n, v) :: rest =>
      match last_setting name rest with
      | Some v' => Some v'
      | None => if String.eqb name n then Some v else None
      end
  end.

(** Whether a value suits a variable. *)
Definition suits (t : flag_target) (v : flag_value) : bool :=
  match t, v with
  | StringTarget _, StringValue _ => true
  | IntTarget _, IntValue n => is_int n
  | _, _ => false
  end.

(** ** 8. More vocabulary for the log of [heartbeat] *)

(** The time slept in a log, in nanoseconds. *)
Fixpoint slept {Scope} (log : list (@observation Scope)) : Z :=
  match log with
  | [] => 0
  | SawSleep d :: rest => d + slept rest
  | SawInc _ _ _ :: rest => slept rest
  end.

(** [p] is what an observer has seen so far of [l]. *)
Fixpoint is_prefix {A} (p l : list A) : Prop :=
  match p, l with
  | [], _ => True
  | a :: p', b :: l' => a = b /\ is_prefix p' l'
  | _ :: _, [] => False
  end.

(** ** 9. More concrete inputs

    A world in which every construction step succeeds, the first old log
    cannot be removed and the second does not exist; and a command line that
    sets the peer port twice. *)

Definition healthy_world : World nat := {|
  configutil_Load := fun _ config => inr (S config);
  metrics_New := fun _ _ => None;
  netutil_GetLocalIP := inr "10.0.0.1";
  core_NewPeerContext := fun _ _ _ _ _ => None;
  store_NewCADownloadStore := fun _ => None;
  networkevent_NewProducer := fun _ => None;
  Tracker_Build := fun _ => None;
  TLS_BuildClient := fun _ => None;
  scheduler_NewAgentScheduler := fun _ => None;
  BuildIndex_Build := fun _ => None;
  Registry_Build := fun _ => None;
  os_Remove := fun name =>
    if String.eqb name "/var/log/kraken/kraken-agent/nginx-access.log"
    then Some "permission denied" else Some "no such file";
  os_IsNotExist := fun e => String.eqb e "no such file";
  nginx_Run := fun _ _ => Some "nginx exited"
|}.

Definition example_settings : list (string * flag_value) :=
  [ ("peer-port", IntValue 16001);
    ("config", StringValue "agent.yaml");
    ("peer-port", IntValue 16005) ].

(** The flags [ParseFlags] makes of this command line. *)
Definition example_parsed_flags : Flags :=
  mkFlags "" 16005 0 0 "agent.yaml" "" "" "".

(** Case analysis on the tests of a flag name [n] against the defined
    names, in a hypothesis [H]. *)
Ltac split_names H n :=
  repeat match type of H with
         | context [String.eqb ?a n] =>
             let E := fresh "E" in
             destruct (String.eqb a n) eqn:E;
             [apply String.eqb_eq in E; subst n |]
         end.

(* ===================================================================== *)
(** * Part II.  Properties                                                *)
(* ===================================================================== *)

(** ** 1. The interface declarations *)

Lemma gotype_eqb_refl (t : gotype) : gotype_eqb t t = true.
Proof. induction t; simpl; auto. Qed.

Lemma gotype_eqb_eq (a b : gotype) : gotype_eqb a b = true <-> a = b.
Proof.
  split.
  - revert b. induction a; destruct b; simpl; intros H; try discriminate; auto.
    f_equal. auto.
  - intros ->. apply gotype_eqb_refl.
Qed.

Lemma gotypes_eqb_eq (l1 l2 : list gotype) : gotypes_eqb l1 l2 = true <-> l1 = l2.
Proof.
  revert l2. induction l1 as [|a l1 IH]; destruct l2 as [|b l2]; simpl;
    try (split; [discriminate | discriminate]); try tauto.
  rewrite andb_true_iff, gotype_eqb_eq, IH. split.
  - intros [-> ->]. reflexivity.
  - intros H. injection H as -> ->. auto.
Qed.

Lemma method_eqb_eq (m1 m2 : method) : method_eqb m1 m2 = true <-> m1 = m2.
Proof.
  destruct m1 as [n1 p1 r1], m2 as [n2 p2 r2]. unfold method_eqb. simpl.
  rewrite !andb_true_iff, String.eqb_eq, !gotypes_eqb_eq. split.
  - intros [[-> ->] ->]. reflexivity.
  - intros H. injection H as -> -> ->. auto.
Qed.

Lemma has_method_In (ms : list method) (m : method) :
  has_method ms m = true <-> In m ms.
Proof.
  unfold has_method. rewrite existsb_exists. split.
  - intros [x [Hin Heq]]. apply method_eqb_eq in Heq. subst. exact Hin.
  - intros Hin. exists m. split; [exact Hin | apply method_eqb_eq; reflexivity].
Qed.

Lemma implements_spec (ms : list method) (i : interface) :
  implements ms i = true <-> (forall m, In m i -> In m ms).
Proof.
  unfold implements. rewrite forallb_forall. split.
  - intros H m Hm. apply has_method_In. auto.
  - intros H m Hm. apply has_method_In. auto.
Qed.

(** The empty method set: a type that declares no method at all, such as
    [int] or a plain struct. *)
Lemma no_methods_implements_Task : implements [] Task = true.
Proof. reflexivity. Qed.

(** C1, as stated, fails: it is not the case that every value usable as a
    [Task] exposes a [Key] operation.  A type without any method satisfies
    [Task], and [Task] itself requires no [Key]. *)
Lemma C1_Task_Key_not_required :
  ~ (forall ms : list method,
        implements ms Task = true -> In "Key" (method_names ms))
  /\ ~ In "Key" (method_names Task).
Proof.
  split.
  - intros H. exact (H [] no_methods_implements_Task).
  - simpl. tauto.
Qed.

(** C1, amended: [Task] is the empty interface.  It requires no operation, so
    every type, whatever its method set, is usable as a [Task], and no name,
    [Key] included, is the name of one of its operations. *)
Theorem C1_Task_is_empty_interface :
  (forall ms : list method, implements ms Task = true)
  /\ (forall name : string, lookup_method name Task = None)
  /\ method_names Task = [].
Proof.
  split; [| split].
  - intros ms. apply implements_spec. intros m Hm. destruct Hm.
  - intros name. reflexivity.
  - reflexivity.
Qed.

(** C2, as stated, fails: neither read operation has the signature
    "() -> sequence of Task" of the spec; the declared result is not the
    single slice. *)
Lemma C2_reads_do_not_return_only_a_sequence :
  option_map m_results (lookup_method "GetFailed" Store) <> Some [TSlice TTask]
  /\ option_map m_results (lookup_method "GetPending" Store) <> Some [TSlice TTask].
Proof. split; simpl; discriminate. Qed.

(** C2, amended: [GetFailed] and [GetPending] each take no argument and
    return a sequence of Tasks together with an [error]; every type used as a
    [Store] has both operations with exactly this signature. *)
Theorem C2_reads_return_sequence_and_error (ms : list method) :
  implements ms Store = true ->
  lookup_method "GetFailed" Store = Some (Method "GetFailed" [] [TSlice TTask; TError])
  /\ lookup_method "GetPending" Store = Some (Method "GetPending" [] [TSlice TTask; TError])
  /\ In (Method "GetFailed" [] [TSlice TTask; TError]) ms
  /\ In (Method "GetPending" [] [TSlice TTask; TError]) ms.
Proof.
  intros H. rewrite implements_spec in H.
  repeat split; try reflexivity; apply H; simpl; auto.
Qed.

Lemma C2_reads_return_sequence_and_error_witness :
  implements Store Store = true
  /\ In (Method "GetFailed" [] [TSlice TTask; TError]) Store
  /\ In (Method "GetPending" [] [TSlice TTask; TError]) Store.
Proof.
  split; [reflexivity |].
  pose proof (C2_reads_return_sequence_and_error Store eq_refl) as H.
  split; apply H.
Defined.

(** C3: the [Executor] contract consists of exactly one operation, [Exec],
    which takes a [Task] and returns an [error] (nil on success): a method
    belongs to the interface exactly when it is that one, and a type is an
    [Executor] exactly when it has it. *)
Theorem C3_Executor_is_exactly_Exec :
  (forall m : method, In m Executor <-> m = Method "Exec" [TTask] [TError])
  /\ List.length Executor = 1
  /\ (forall ms : list method,
        implements ms Executor = true <-> In (Method "Exec" [TTask] [TError]) ms).
Proof.
  split; [| split].
  - intros m. simpl. split.
    + intros [H | []]. symmetry. exact H.
    + intros ->. left. reflexivity.
  - reflexivity.
  - intros ms. rewrite implements_spec. split.
    + intros H. apply H. simpl. auto.
    + intros H m [<- | []]. exact H.
Qed.

(** C4, as stated, fails: the [Store] interface does not expose exactly four
    operations. *)
Lemma C4_Store_has_not_four_operations : List.length Store <> 4.
Proof. simpl. discriminate. Qed.

(** C4, amended: the [Store] interface exposes exactly six operations.  Four
    of them, [MarkPending], [MarkFailed], [MarkDone] and [Close], return only
    an [error]; the other two, [GetFailed] and [GetPending], are the reads,
    which return a sequence of Tasks and an [error]. *)
Theorem C4_Store_has_six_operations :
  List.length Store = 6
  /\ method_names Store
     = ["GetFailed"; "GetPending"; "MarkPending"; "MarkFailed"; "MarkDone"; "Close"]
  /\ error_only_methods Store = ["MarkPending"; "MarkFailed"; "MarkDone"; "Close"]
  /\ method_names (filter (fun m => negb (returns_only_error m)) Store)
     = ["GetFailed"; "GetPending"].
Proof. repeat split. Qed.

(** ** 2. The bootstrap *)

Section RunFacts.

Context {Config : Type}.
Variable zeroConfig : Config.
Variable w : World Config.

Lemma Run_never_returns (flags : Flags) : snd (Run zeroConfig w flags) <> Returned.
Proof. unfold_run. split_run. all: discriminate. Qed.

Lemma Run_stops_at_first_failure (flags : Flags) tr out :
  Run zeroConfig w flags = (tr, out) ->
  stops_at_first_failure w tr out.
Proof.
  unfold_run. split_run.
  all: intros H; injection H as <- <-; simpl.
  all: use_answers.
  all: auto.
Qed.

Lemma stops_at_first_failure_inv pre ev post e out :
  stops_at_first_failure w (pre ++ ev :: post) out ->
  failure_of w ev = Some e ->
  post = [] /\ out = abort_of ev e.
Proof.
  induction pre as [|a pre IH]; simpl; intros H He.
  - rewrite He in H. exact H.
  - destruct (failure_of w a).
    + destruct H as [H _]. destruct pre; discriminate.
    + auto.
Qed.

Lemma abort_of_failure_not_Returned ev e :
  failure_of w ev = Some e -> abort_of ev e <> Returned.
Proof. destruct ev; simpl; intros H; discriminate. Qed.

Lemma Run_port_checks (flags : Flags) tr out :
  Run zeroConfig w flags = (tr, out) ->
  ((PeerPort flags = 0%Z \/ AgentServerPort flags = 0%Z \/ AgentRegistryPort flags = 0%Z) ->
     tr = [] /\ exists msg, In msg port_panics /\ out = Panicked (PanicString msg))
  /\ (ports_set flags -> forall msg, out <> Panicked (PanicString msg)).
Proof.
  unfold ports_set, port_panics. unfold_run. split_run.
  all: intros H; injection H as <- <-.
  all: rewrite ?Z.eqb_eq, ?Z.eqb_neq in *.
  all: split;
    [ intros [Hz | [Hz | Hz]]; try contradiction;
      (split; [reflexivity | eexists; split; [| reflexivity]; simpl; auto])
    | intros [H1 [H2 H3]] msg; try contradiction; discriminate ].
Qed.

End RunFacts.

(** C8: the initialization of [Run] is build-or-abort.  [Run] never returns
    to its caller, so no error value reaches it; and whenever a construction
    step of the trace fails (a configuration load, metrics, the local IP, the
    peer context, the store, the network events, the trackers, TLS, the
    scheduler, the build-index, the registry), that step is the last thing
    [Run] does and the process ends there, by the panic or the fatal log of
    that step. *)
Theorem C8_Run_builds_or_aborts {Config : Type} (zeroConfig : Config)
    (w : World Config) (flags : Flags) :
  snd (Run zeroConfig w flags) <> Returned
  /\ forall pre ev post e,
       fst (Run zeroConfig w flags) = pre ++ ev :: post ->
       failure_of w ev = Some e ->
       post = []
       /\ snd (Run zeroConfig w flags) = abort_of ev e
       /\ ((exists v, abort_of ev e = Panicked v) \/ (exists msg, abort_of ev e = Exited msg)).
Proof.
  split; [apply Run_never_returns |].
  intros pre ev post e Htr Hfail.
  destruct (Run zeroConfig w flags) as [tr out] eqn:HRun. simpl in *.
  apply Run_stops_at_first_failure in HRun. subst tr.
  destruct (stops_at_first_failure_inv w pre ev post e out HRun Hfail) as [Hpost Hout].
  repeat split; auto.
  pose proof (abort_of_failure_not_Returned w ev e Hfail) as Hnr.
  destruct (abort_of ev e); [contradiction | left; eauto | right; eauto].
Qed.

Lemma C8_Run_builds_or_aborts_witness :
  snd (Run 0 example_world example_flags)
  = Exited "Error building tracker upstream: no trackers".
Proof.
  exact (proj1 (proj2
    (proj2 (C8_Run_builds_or_aborts 0 example_world example_flags)
       [ CallLoad "agent.yaml" 0; CallLoad "secrets.yaml" 1;
         CallConfigureLogger 2; CallMetricsNew 2 "prod01-zone1";
         Go GoEmitVersion; CallGetLocalIP;
         CallNewPeerContext 2 "zone1" "prod01-zone1" "10.0.0.1" 16001;
         CallNewCADownloadStore 2; CallNewProducer 2 ]
       (CallTrackerBuild 2) [] "no trackers" eq_refl eq_refl))).
Defined.

(** C9: [Run] validates its three port flags before any other effect.  If
    [PeerPort], [AgentServerPort] or [AgentRegistryPort] is zero, [Run] panics
    with one of the three messages and its trace is empty: nothing was called,
    no configuration file was loaded.  If all three are non-zero, [Run] ends
    with none of these three panics. *)
Theorem C9_Run_validates_ports_first {Config : Type} (zeroConfig : Config)
    (w : World Config) (flags : Flags) :
  ((PeerPort flags = 0%Z \/ AgentServerPort flags = 0%Z \/ AgentRegistryPort flags = 0%Z) ->
     fst (Run zeroConfig w flags) = []
     /\ loads (fst (Run zeroConfig w flags)) = []
     /\ exists msg, In msg port_panics
                    /\ snd (Run zeroConfig w flags) = Panicked (PanicString msg))
  /\ (ports_set flags ->
      forall msg, In msg port_panics ->
                  snd (Run zeroConfig w flags) <> Panicked (PanicString msg)).
Proof.
  destruct (Run zeroConfig w flags) as [tr out] eqn:HRun. simpl.
  destruct (Run_port_checks zeroConfig w flags tr out HRun) as [Hzero Hset].
  split.
  - intros Hz. destruct (Hzero Hz) as [-> Hmsg]. auto.
  - intros Hp msg _. apply Hset. exact Hp.
Qed.

Lemma C9_Run_validates_ports_first_witness :
  fst (Run 0 example_world flags_without_server_port) = []
  /\ snd (Run 0 example_world example_flags)
     <> Panicked (PanicString "must specify non-zero peer port").
Proof.
  split.
  - apply (proj1 (C9_Run_validates_ports_first 0 example_world
                    flags_without_server_port)).
    right. left. reflexivity.
  - apply (proj2 (C9_Run_validates_ports_first 0 example_world example_flags)).
    + unfold ports_set. simpl. repeat split; discriminate.
    + simpl. auto.
Defined.

Section LoadFacts.

Context {Config : Type}.
Variable zeroConfig : Config.
Variable w : World Config.

(** With the ports set, the first thing [Run] does is to load [ConfigFile]
    into the zero configuration. *)
Lemma Run_first_loads_ConfigFile (flags : Flags) :
  ports_set flags ->
  exists rest,
    fst (Run zeroConfig w flags) = CallLoad (ConfigFile flags) zeroConfig :: rest.
Proof.
  intros [H1 [H2 H3]]. apply Z.eqb_neq in H1, H2, H3.
  unfold_run. rewrite H1, H2, H3. simpl.
  split_run. all: eexists; reflexivity.
Qed.

(** Without a secrets file, the configuration that was loaded is used as it
    is, and nothing else is loaded. *)
Lemma Run_without_secrets (flags : Flags) (config : Config) :
  ports_set flags ->
  configutil_Load w (ConfigFile flags) zeroConfig = inr config ->
  SecretsFile flags = "" ->
  exists rest,
    fst (Run zeroConfig w flags)
    = CallLoad (ConfigFile flags) zeroConfig :: CallConfigureLogger config :: rest
    /\ loads rest = [].
Proof.
  intros [H1 [H2 H3]] Hload Hsecrets. apply Z.eqb_neq in H1, H2, H3.
  unfold_run. rewrite H1, H2, H3, Hload, Hsecrets. simpl.
  split_run. all: eexists; split; reflexivity.
Qed.

(** With a secrets file, it is loaded next, into the configuration the first
    load produced; nothing else is loaded, and what the second load produces
    is the configuration the rest of [Run] uses. *)
Lemma Run_with_secrets (flags : Flags) (config : Config) :
  ports_set flags ->
  configutil_Load w (ConfigFile flags) zeroConfig = inr config ->
  SecretsFile flags <> "" ->
  exists rest,
    fst (Run zeroConfig w flags)
    = CallLoad (ConfigFile flags) zeroConfig :: CallLoad (SecretsFile flags) config :: rest
    /\ loads rest = []
    /\ forall config', configutil_Load w (SecretsFile flags) config = inr config' ->
                       exists rest', rest = CallConfigureLogger config' :: rest'.
Proof.
  intros [H1 [H2 H3]] Hload Hsecrets.
  apply Z.eqb_neq in H1, H2, H3. apply String.eqb_neq in Hsecrets.
  unfold_run. rewrite H1, H2, H3, Hload, Hsecrets. simpl.
  destruct (configutil_Load w (SecretsFile flags) config) as [e | config'] eqn:Hload2; simpl.
  - eexists. repeat split. intros c Hc. discriminate.
  - split_run.
    all: eexists; split; [reflexivity | split; [reflexivity |]].
    all: intros c Hc; injection Hc as <-; eexists; reflexivity.
Qed.

End LoadFacts.

(** C10: once the port checks have passed, [Run] loads the file named by
    [ConfigFile] into the configuration, whatever its name; and, that load
    having succeeded, it loads the file named by [SecretsFile] if and only if
    [SecretsFile] is non-empty, right after the first load and into the
    configuration that load produced, so that the secrets come on top of the
    base configuration.  No other file is loaded. *)
Theorem C10_Run_loads_config_then_secrets {Config : Type} (zeroConfig : Config)
    (w : World Config) (flags : Flags) :
  ports_set flags ->
  (exists rest,
      fst (Run zeroConfig w flags) = CallLoad (ConfigFile flags) zeroConfig :: rest)
  /\ forall config,
       configutil_Load w (ConfigFile flags) zeroConfig = inr config ->
       (SecretsFile flags <> "" <->
        exists rest,
          fst (Run zeroConfig w flags)
          = CallLoad (ConfigFile flags) zeroConfig
              :: CallLoad (SecretsFile flags) config :: rest)
       /\ (SecretsFile flags <> "" ->
           loads (fst (Run zeroConfig w flags))
           = [CallLoad (ConfigFile flags) zeroConfig; CallLoad (SecretsFile flags) config])
       /\ (SecretsFile flags = "" ->
           loads (fst (Run zeroConfig w flags))
           = [CallLoad (ConfigFile flags) zeroConfig])
       /\ (forall config',
             SecretsFile flags <> "" ->
             configutil_Load w (SecretsFile flags) config = inr config' ->
             exists rest,
               fst (Run zeroConfig w flags)
               = CallLoad (ConfigFile flags) zeroConfig
                   :: CallLoad (SecretsFile flags) config
                   :: CallConfigureLogger config' :: rest).
Proof.
  intros Hports. split; [apply Run_first_loads_ConfigFile; exact Hports |].
  intros config Hload. split; [| split; [| split]].
  - split.
    + intros Hs.
      destruct (Run_with_secrets zeroConfig w flags config Hports Hload Hs)
        as [rest [Htr _]].
      exists rest. exact Htr.
    + intros [rest Htr] Hs.
      destruct (Run_without_secrets zeroConfig w flags config Hports Hload Hs)
        as [rest' [Htr' _]].
      rewrite Htr' in Htr. discriminate.
  - intros Hs.
    destruct (Run_with_secrets zeroConfig w flags config Hports Hload Hs)
      as [rest [Htr [Hrest _]]].
    rewrite Htr. unfold loads in *. simpl. rewrite Hrest. reflexivity.
  - intros Hs.
    destruct (Run_without_secrets zeroConfig w flags config Hports Hload Hs)
      as [rest [Htr Hrest]].
    rewrite Htr. unfold loads in *. simpl. rewrite Hrest. reflexivity.
  - intros config' Hs Hload2.
    destruct (Run_with_secrets zeroConfig w flags config Hports Hload Hs)
      as [rest [Htr [_ Hnext]]].
    destruct (Hnext config' Hload2) as [rest' ->].
    exists rest'. exact Htr.
Qed.

Lemma C10_Run_loads_config_then_secrets_witness :
  loads (fst (Run 0 example_world example_flags))
  = [CallLoad "agent.yaml" 0; CallLoad "secrets.yaml" 1].
Proof.
  assert (Hports : ports_set example_flags).
  { unfold ports_set. simpl. repeat split; discriminate. }
  apply (proj1 (proj2 (proj2
           (C10_Run_loads_config_then_secrets 0 example_world example_flags Hports)
           1 eq_refl))).
  simpl. discriminate.
Defined.

(** C10, as stated, fails.  With a port left at zero [Run] loads nothing, so
    the load of [ConfigFile] is not unconditional; and when the configuration
    file cannot be loaded, a non-empty [SecretsFile] is never loaded. *)
Lemma C10_loads_are_conditional :
  loads (fst (Run 0 example_world flags_without_server_port)) = []
  /\ SecretsFile flags_with_missing_config <> ""
  /\ loads (fst (Run 0 example_world flags_with_missing_config))
     = [CallLoad "missing.yaml" 0].
Proof. split; [reflexivity | split; [discriminate | reflexivity]]. Qed.

(** ** 3. The heartbeat loop *)

Section HeartbeatFacts.

Context {Scope : Type}.
Variable stats : Scope.

Lemma heartbeat_unfold :
  eq_itree eq (heartbeat stats)
              (ITree.bind (heartbeat_iteration stats) (fun _ => Tau (heartbeat stats))).
Proof. unfold heartbeat. apply unfold_forever. Qed.

(** After any number of iterations, what remains to run is the loop. *)
Lemma heartbeat_after (n : nat) :
  eutt eq (heartbeat stats)
          (ITree.bind (heartbeat_iterations stats n) (fun _ => heartbeat stats)).
Proof.
  induction n as [|n IH]; simpl.
  - rewrite bind_ret_l. reflexivity.
  - rewrite bind_bind. rewrite heartbeat_unfold at 1.
    eapply eutt_clo_bind; [reflexivity |].
    intros u1 u2 _. rewrite tau_eutt. exact IH.
Qed.

(** What the observer has seen after [n] iterations. *)
Lemma heartbeat_iterations_log (n : nat) (log : list observation) :
  eutt eq (interp_state observe_calls (heartbeat_iterations stats n) log)
          (Ret (log ++ heartbeat_log stats n, tt)).
Proof.
  revert log. induction n as [|n IH]; intros log; simpl.
  - rewrite interp_state_ret, app_nil_r. reflexivity.
  - unfold heartbeat_iteration. rewrite bind_bind.
    rewrite interp_state_bind, interp_state_trigger. cbn. rewrite bind_ret_l. cbn.
    rewrite interp_state_bind, interp_state_trigger. cbn. rewrite bind_ret_l. cbn.
    rewrite IH. rewrite <- !app_assoc. reflexivity.
Qed.

(** No branch of the loop ends: by coinduction, one turn of the loop at a
    time. *)
Lemma heartbeat_all_infinite : all_infinite (heartbeat stats).
Proof.
  pcofix CIH. pfold. unfold all_infinite_. cbn.
  constructor. intros []. left. pfold. unfold all_infinite_. cbn.
  constructor. intros []. left. pfold. unfold all_infinite_. cbn.
  constructor. right. apply CIH.
Qed.

Lemma increments_heartbeat_log (n : nat) : increments (heartbeat_log stats n) = n.
Proof.
  unfold increments. induction n as [|n IH]; simpl; [reflexivity |].
  f_equal. exact IH.
Qed.

End HeartbeatFacts.

(** C7: the heartbeat loop is unbounded.  Once started it never terminates:
    every branch of [heartbeat] is infinite, there is no path on which it
    returns.  For every natural number [n] it runs through [n] iterations and
    then goes on as the same loop; these [n] iterations perform [n] increments
    by one of the counter "heartbeat", each followed by a sleep of ten
    seconds. *)
Theorem C7_heartbeat_is_unbounded {Scope : Type} (stats : Scope) :
  all_infinite (heartbeat stats)
  /\ forall n : nat,
       eutt eq (heartbeat stats)
               (ITree.bind (heartbeat_iterations stats n) (fun _ => heartbeat stats))
       /\ (forall log,
              eutt eq (interp_state observe_calls (heartbeat_iterations stats n) log)
                      (Ret (log ++ heartbeat_log stats n, tt)))
       /\ increments (heartbeat_log stats n) = n
       /\ heartbeat_log stats (S n)
          = SawInc stats "heartbeat" 1 :: SawSleep (10 * Second) :: heartbeat_log stats n.
Proof.
  split; [apply heartbeat_all_infinite |].
  intros n. split; [apply heartbeat_after |].
  split; [intros log; apply heartbeat_iterations_log |].
  split; [apply increments_heartbeat_log | reflexivity].
Qed.

(** ** 4. The reference Store *)

Lemma has_key_true (k : string) (t : TaskRecord) : has_key k t = true <-> Key t = k.
Proof. unfold has_key. apply String.eqb_eq. Qed.

Lemma has_key_false (k : string) (t : TaskRecord) : has_key k t = false <-> Key t <> k.
Proof. unfold has_key. apply String.eqb_neq. Qed.

Lemma remove_key_absent (k : string) (l : list TaskRecord) :
  ~ In k (keys l) -> remove_key k l = l.
Proof.
  induction l as [|a l IH]; simpl; intros H; [reflexivity |].
  destruct (has_key k a) eqn:Ha; simpl.
  - apply has_key_true in Ha. tauto.
  - f_equal. apply IH. tauto.
Qed.

Lemma filter_key_remove_key (k : string) (l : list TaskRecord) :
  filter (has_key k) (remove_key k l) = [].
Proof.
  induction l as [|a l IH]; simpl; [reflexivity |].
  destruct (has_key k a) eqn:Ha; simpl; [exact IH |].
  rewrite Ha. exact IH.
Qed.

Lemma filter_key_remove_other (k k' : string) (l : list TaskRecord) :
  k <> k' -> filter (has_key k) (remove_key k' l) = filter (has_key k) l.
Proof.
  intros Hk. induction l as [|a l IH]; simpl; [reflexivity |].
  destruct (has_key k' a) eqn:Ha'; simpl.
  - apply has_key_true in Ha'.
    assert (Ha : has_key k a = false) by (apply has_key_false; congruence).
    rewrite Ha. exact IH.
  - destruct (has_key k a); [f_equal |]; exact IH.
Qed.

Lemma In_keys_remove_key (k x : string) (l : list TaskRecord) :
  In x (keys (remove_key k l)) <-> In x (keys l) /\ x <> k.
Proof.
  induction l as [|a l IH]; simpl; [tauto |].
  destruct (has_key k a) eqn:Ha; simpl.
  - apply has_key_true in Ha. rewrite IH. split; [tauto |].
    intros [[H | H] Hx]; [congruence | tauto].
  - apply has_key_false in Ha. rewrite IH. split; [| tauto].
    intros [H | H]; [split; [tauto | congruence] | tauto].
Qed.

Lemma NoDup_keys_remove_key (k : string) (l : list TaskRecord) :
  NoDup (keys l) -> NoDup (keys (remove_key k l)).
Proof.
  induction l as [|a l IH]; simpl; intros H; [constructor |].
  inversion H as [|x xs Hnotin Hnodup]; subst.
  destruct (has_key k a); simpl; [auto |].
  constructor; [| auto].
  rewrite In_keys_remove_key. tauto.
Qed.

Lemma filter_key_absent (k : string) (l : list TaskRecord) :
  ~ In k (keys l) -> filter (has_key k) l = [].
Proof.
  induction l as [|a l IH]; simpl; intros H; [reflexivity |].
  destruct (has_key k a) eqn:Ha.
  - apply has_key_true in Ha. tauto.
  - apply IH. tauto.
Qed.

Lemma NoDup_keys_at_most_one (k : string) (l : list TaskRecord) :
  NoDup (keys l) -> List.length (filter (has_key k) l) <= 1.
Proof.
  induction l as [|a l IH]; simpl; intros H; [lia |].
  inversion H as [|x xs Hnotin Hnodup]; subst.
  destruct (has_key k a) eqn:Ha; [| auto].
  apply has_key_true in Ha. subst k.
  rewrite filter_key_absent by exact Hnotin. simpl. lia.
Qed.

Lemma In_keys_filter_key (k : string) (l : list TaskRecord) :
  In k (keys l) -> 1 <= List.length (filter (has_key k) l).
Proof.
  induction l as [|a l IH]; simpl; intros H; [tauto |].
  destruct (has_key k a) eqn:Ha; simpl; [lia |].
  apply has_key_false in Ha. destruct H as [H | H]; [congruence | auto].
Qed.

Lemma length_remove_key (k : string) (l : list TaskRecord) :
  List.length (remove_key k l) + List.length (filter (has_key k) l) = List.length l.
Proof.
  induction l as [|a l IH]; simpl; [reflexivity |].
  destruct (has_key k a); simpl; lia.
Qed.

Lemma keys_upsert (t : TaskRecord) (l : list TaskRecord) :
  keys (upsert t l) = keys (remove_key (Key t) l) ++ [Key t].
Proof. unfold upsert, keys. rewrite List.map_app. reflexivity. Qed.

Lemma NoDup_keys_upsert (t : TaskRecord) (l : list TaskRecord) :
  NoDup (keys l) -> NoDup (keys (upsert t l)).
Proof.
  intros H. rewrite keys_upsert.
  apply NoDup_app.
  - apply NoDup_keys_remove_key. exact H.
  - constructor; [simpl; tauto | constructor].
  - intros x Hx [<- | []]. apply In_keys_remove_key in Hx. tauto.
Qed.

Lemma filter_key_upsert (t : TaskRecord) (l : list TaskRecord) :
  filter (has_key (Key t)) (upsert t l) = [t].
Proof.
  unfold upsert. rewrite filter_app, filter_key_remove_key. simpl.
  assert (H : has_key (Key t) t = true) by (apply has_key_true; reflexivity).
  rewrite H. reflexivity.
Qed.

Lemma filter_key_upsert_other (k : string) (t : TaskRecord) (l : list TaskRecord) :
  k <> Key t -> filter (has_key k) (upsert t l) = filter (has_key k) l.
Proof.
  intros Hk. unfold upsert. rewrite filter_app, filter_key_remove_other by exact Hk.
  simpl. assert (H : has_key k t = false) by (apply has_key_false; congruence).
  rewrite H. apply app_nil_r.
Qed.

Lemma In_keys_filter (f : TaskRecord -> bool) (k : string) (l : list TaskRecord) :
  In k (keys (filter f l)) -> In k (keys l).
Proof.
  unfold keys. rewrite !in_map_iff. intros [t [Hk Ht]].
  apply filter_In in Ht. exists t. tauto.
Qed.

(** An open store whose backing store answers performs the write. *)
Lemma write_operational (s : RefStore) (f : list TaskRecord -> list TaskRecord) :
  operational s ->
  write s f = (None, mkStore (f (records s)) false true).
Proof. intros [Hc Ha]. unfold write. rewrite Hc, Ha. reflexivity. Qed.

(** A write leaves the records alone or applies its function to them. *)
Lemma write_cases (s : RefStore) (f : list TaskRecord -> list TaskRecord) :
  snd (write s f) = s \/ records (snd (write s f)) = f (records s).
Proof.
  unfold write. destruct (closed s); [left; reflexivity |].
  destruct (backing_available s); simpl; [right | left]; reflexivity.
Qed.

(** The read operations on an open store: no error, and exactly the records
    of the status asked for. *)
Lemma GetFailed_snapshot (s : RefStore) (t : TaskRecord) :
  closed s = false ->
  snd (GetFailed s) = None
  /\ (In t (fst (GetFailed s)) <-> In t (records s) /\ TaskStatus t = Failed).
Proof.
  intros Hc. unfold GetFailed. rewrite Hc. simpl. split; [reflexivity |].
  rewrite filter_In. unfold has_status. destruct (TaskStatus t); simpl; intuition congruence.
Qed.

Lemma GetPending_snapshot (s : RefStore) (t : TaskRecord) :
  closed s = false ->
  snd (GetPending s) = None
  /\ (In t (fst (GetPending s)) <-> In t (records s) /\ TaskStatus t = Pending).
Proof.
  intros Hc. unfold GetPending. rewrite Hc. simpl. split; [reflexivity |].
  rewrite filter_In. unfold has_status. destruct (TaskStatus t); simpl; intuition congruence.
Qed.

(** After [Close] the reads answer with the closed-store error and an empty
    sequence, whatever the store holds. *)
Lemma reads_on_closed_store (s : RefStore) :
  closed s = true ->
  GetFailed s = ([], Some ErrClosed) /\ GetPending s = ([], Some ErrClosed).
Proof. intros Hc. unfold GetFailed, GetPending. rewrite Hc. split; reflexivity. Qed.

(** Every operation keeps the keys of a store unique. *)
Lemma unique_keys_write_upsert (s : RefStore) (t : TaskRecord) :
  unique_keys s -> unique_keys (snd (write s (upsert t))).
Proof.
  unfold unique_keys. intros H.
  destruct (write_cases s (upsert t)) as [-> | ->]; [exact H |].
  apply NoDup_keys_upsert. exact H.
Qed.

Lemma unique_keys_MarkDone (s : RefStore) (t : TaskRecord) :
  unique_keys s -> unique_keys (snd (MarkDone t s)).
Proof.
  unfold unique_keys, MarkDone. intros H.
  destruct (write_cases s (remove_key (Key t))) as [-> | ->]; [exact H |].
  apply NoDup_keys_remove_key. exact H.
Qed.

(** C5, as stated, fails: on a store that was closed, [MarkDone] of a task
    whose key is absent does not return success, it returns the closed-store
    error. *)
Lemma C5_MarkDone_fails_on_closed_store :
  ~ In (Key blob_B) (keys (records closed_store_A))
  /\ MarkDone blob_B closed_store_A = (Some ErrClosed, closed_store_A).
Proof.
  split; [| reflexivity].
  simpl. intros [H | []]. discriminate.
Qed.

(** C5, amended: on a store that is open and whose backing store is
    available, [MarkDone] of a task whose key is already absent returns
    success and leaves the store as it is.  [MarkPending] on a key that is
    already Pending creates no duplicate record: the store never holds more
    records for the key than before, the records of the other keys are
    untouched, unique keys stay unique and the number of records does not
    change; and when the store is open and available the call succeeds and
    leaves exactly one record for the key, the task as Pending. *)
Theorem C5_MarkDone_MarkPending_idempotent (s : RefStore) (t : TaskRecord) :
  (operational s ->
   ~ In (Key t) (keys (records s)) ->
   MarkDone t s = (None, s))
  /\ (In (Key t) (keys (fst (GetPending s))) ->
      count_key (Key t) (snd (MarkPending t s)) <= count_key (Key t) s
      /\ (forall k, k <> Key t -> count_key k (snd (MarkPending t s)) = count_key k s)
      /\ (unique_keys s ->
          unique_keys (snd (MarkPending t s))
          /\ List.length (records (snd (MarkPending t s))) = List.length (records s))
      /\ (operational s ->
          fst (MarkPending t s) = None
          /\ count_key (Key t) (snd (MarkPending t s)) = 1
          /\ In (with_status t Pending) (fst (GetPending (snd (MarkPending t s)))))).
Proof.
  split.
  - intros Hop Habsent. unfold MarkDone. rewrite write_operational by exact Hop.
    rewrite remove_key_absent by exact Habsent.
    destruct s as [r c a]. destruct Hop as [Hc Ha]. simpl in *. subst. reflexivity.
  - intros Hpending.
    assert (Hin : In (Key t) (keys (records s))).
    { unfold GetPending in Hpending. destruct (closed s); simpl in Hpending; [tauto |].
      eapply In_keys_filter. exact Hpending. }
    pose proof (In_keys_filter_key (Key t) (records s) Hin) as Hone.
    set (t' := with_status t Pending).
    assert (Hcount : List.length (filter (has_key (Key t)) (upsert t' (records s))) = 1).
    { change (Key t) with (Key t'). rewrite filter_key_upsert. reflexivity. }
    unfold MarkPending. fold t'. unfold count_key.
    split; [| split; [| split]].
    + destruct (write_cases s (upsert t')) as [-> | ->]; [lia |].
      rewrite Hcount. exact Hone.
    + intros k Hk. destruct (write_cases s (upsert t')) as [-> | ->]; [reflexivity |].
      f_equal. apply filter_key_upsert_other. exact Hk.
    + intros Huniq. split; [apply unique_keys_write_upsert; exact Huniq |].
      destruct (write_cases s (upsert t')) as [-> | ->]; [reflexivity |].
      pose proof (NoDup_keys_at_most_one (Key t) (records s) Huniq) as Hmost.
      pose proof (length_remove_key (Key t) (records s)) as Hlen.
      unfold upsert. rewrite length_app. simpl.
      change (Key t') with (Key t). lia.
    + intros Hop. rewrite write_operational by exact Hop. simpl.
      split; [reflexivity |]. split; [exact Hcount |].
      unfold GetPending. simpl. apply filter_In. split; [| reflexivity].
      unfold upsert. apply in_or_app. right. simpl. auto.
Qed.

Lemma C5_MarkDone_MarkPending_idempotent_witness :
  MarkDone blob_B store_A = (None, store_A)
  /\ count_key "blob-A" (snd (MarkPending blob_A store_A)) = 1.
Proof.
  assert (Hop : operational store_A) by (split; reflexivity).
  split.
  - apply (proj1 (C5_MarkDone_MarkPending_idempotent store_A blob_B) Hop).
    simpl. intros [H | []]. discriminate.
  - apply (proj2 (C5_MarkDone_MarkPending_idempotent store_A blob_A)).
    + simpl. left. reflexivity.
    + exact Hop.
Defined.

(** ** 5. The reference Manager *)

Section ManagerFacts.

Variable N : nat.
Variable backoff : nat -> Z.
Variable max_attempts : option nat.

Lemma key_in_flight_false (k : string) (m : ManagerState) :
  key_in_flight k m = false -> ~ In k (keys (in_flight m)).
Proof.
  unfold key_in_flight, keys. intros Hfalse Hin.
  apply in_map_iff in Hin. destruct Hin as [t [Hk Ht]].
  assert (Htrue : existsb (has_key k) (in_flight m) = true).
  { apply existsb_exists. exists t. split; [exact Ht | apply has_key_true; exact Hk]. }
  congruence.
Qed.

Lemma length_remove_key_le (k : string) (l : list TaskRecord) :
  List.length (remove_key k l) <= List.length l.
Proof. pose proof (length_remove_key k l). lia. Qed.

Lemma manager_step_in_flight_ok (m m' : ManagerState) :
  manager_step N backoff max_attempts m m' -> in_flight_ok N m -> in_flight_ok N m'.
Proof.
  unfold in_flight_ok.
  intros Hstep [Hnodup Hlen]. destruct Hstep; simpl.
  - split; [| lia]. constructor; [| exact Hnodup].
    apply key_in_flight_false. assumption.
  - split; [apply NoDup_keys_remove_key; exact Hnodup |].
    pose proof (length_remove_key_le (Key t) (in_flight m)). lia.
  - split; [apply NoDup_keys_remove_key; exact Hnodup |].
    pose proof (length_remove_key_le (Key t) (in_flight m)). lia.
  - auto.
  - auto.
Qed.

Lemma reachable_in_flight_ok (s0 : RefStore) (t0 : Z) (m : ManagerState) :
  reachable N backoff max_attempts s0 t0 m -> in_flight_ok N m.
Proof.
  induction 1 as [| m m' _ IH Hstep].
  - split; simpl; [constructor | lia].
  - eapply manager_step_in_flight_ok; eassumption.
Qed.

End ManagerFacts.

(** C6: mutual exclusion per key.  In every state the manager can reach from
    its start, for every key at most one [Exec] call is active: the keys of
    the tasks in flight are pairwise distinct (and there are no more of them
    than workers in the pool). *)
Theorem C6_mutual_exclusion_per_key (N : nat) (backoff : nat -> Z)
    (max_attempts : option nat) (s0 : RefStore) (t0 : Z) (m : ManagerState) :
  reachable N backoff max_attempts s0 t0 m ->
  (forall k : string, active_execs k m <= 1)
  /\ NoDup (keys (in_flight m))
  /\ List.length (in_flight m) <= N.
Proof.
  intros Hreach.
  destruct (reachable_in_flight_ok N backoff max_attempts s0 t0 m Hreach) as [Hnodup Hlen].
  split; [| split; assumption].
  intros k. unfold active_execs. apply NoDup_keys_at_most_one. exact Hnodup.
Qed.

Lemma C6_mutual_exclusion_per_key_witness :
  reachable 1 (fun _ => 1%Z) None store_A 0 manager_A
  /\ active_execs "blob-A" manager_A <= 1.
Proof.
  assert (Hreach : reachable 1 (fun _ => 1%Z) None store_A 0 manager_A).
  { apply (reach_step 1 (fun _ => 1%Z) None store_A 0 (mkManager store_A [] 0)).
    - apply reach_start.
    - apply (step_dispatch 1 (fun _ => 1%Z) None (mkManager store_A [] 0) blob_A).
      + simpl. left. reflexivity.
      + reflexivity.
      + simpl. lia. }
  split; [exact Hreach |].
  apply (proj1 (C6_mutual_exclusion_per_key 1 (fun _ => 1%Z) None store_A 0 manager_A Hreach)).
Defined.

(* ===================================================================== *)
(** * Part III.  Further properties of the bootstrap                      *)
(* ===================================================================== *)

(** ** 1. [Run] *)

Section MoreRunFacts.

Context {Config : Type}.
Variable zeroConfig : Config.
Variable w : World Config.

Lemma Run_no_deferred (flags : Flags) tr out :
  Run zeroConfig w flags = (tr, out) ->
  forallb (fun ev => negb (is_deferred ev)) tr = true.
Proof.
  unfold_run. split_run.
  all: intros H; injection H as <- <-; reflexivity.
Qed.

Lemma Run_goroutines_prefix (flags : Flags) tr out :
  Run zeroConfig w flags = (tr, out) ->
  exists rest, goroutines tr ++ rest = all_goroutines flags.
Proof.
  unfold all_goroutines. unfold_run. split_run.
  all: intros H; injection H as <- <-; simpl.
  all: eexists; reflexivity.
Qed.

Lemma Run_config_of (flags : Flags) tr out :
  Run zeroConfig w flags = (tr, out) ->
  forall ev c, In ev tr -> config_of ev = Some c ->
               final_config zeroConfig w flags = Some c.
Proof.
  unfold final_config. unfold_run. split_run.
  all: intros H; injection H as <- <-.
  all: intros xev xcfg Hin Hc; simpl in Hin.
  all: repeat (destruct Hin as [<- | Hin]; [simpl in Hc; congruence |]).
  all: contradiction.
Qed.

Lemma Run_panic_or_exit (flags : Flags) tr out :
  Run zeroConfig w flags = (tr, out) ->
  (forall v, out = Panicked v -> forallb is_load tr = true /\ List.length tr <= 2)
  /\ (forall msg, out = Exited msg ->
        ports_set flags
        /\ exists c, final_config zeroConfig w flags = Some c
                     /\ In (CallConfigureLogger c) tr).
Proof.
  unfold final_config, ports_set. unfold_run. split_run.
  all: intros H; injection H as <- <-.
  all: rewrite ?Z.eqb_eq, ?Z.eqb_neq in *.
  all: split;
    [ intros xv Hv; first [discriminate | simpl; split; [reflexivity | lia]]
    | intros xmsg Hm;
      first [ discriminate
            | split; [tauto | eexists; split; [reflexivity | simpl; tauto]] ] ].
Qed.

Lemma Run_heartbeat_started (flags : Flags) tr out :
  Run zeroConfig w flags = (tr, out) ->
  existsb is_go_heartbeat tr = true ->
  ports_set flags
  /\ (forall ev, In ev tr -> failure_of w ev = None)
  /\ exists c,
       final_config zeroConfig w flags = Some c
       /\ List.last tr (Go GoHeartbeat) = CallNginxRun c (AgentRegistryPort flags)
       /\ out = Exited (sprint_error (nginx_Run w c (AgentRegistryPort flags)))
       /\ filter is_remove tr = List.map CallRemove old_nginx_logs
       /\ List.length (filter is_warn tr)
          = List.length (filter (removal_warns w) old_nginx_logs).
Proof.
  unfold final_config, ports_set, removal_warns. unfold_run. split_run.
  all: intros H; injection H as <- <-.
  all: intros Hhb; simpl in Hhb; try discriminate Hhb.
  all: rewrite ?Z.eqb_eq, ?Z.eqb_neq in *.
  all: split; [tauto |].
  all: split;
    [ intros xev Hin; simpl in Hin;
      repeat (destruct Hin as [<- | Hin]; [simpl; use_answers; reflexivity |]);
      contradiction
    | eexists; split; [reflexivity |];
      split; [reflexivity |];
      split; [reflexivity |];
      split; [reflexivity |];
      simpl; use_answers; reflexivity ].
Qed.

Lemma Run_not_started (flags : Flags) tr out :
  Run zeroConfig w flags = (tr, out) ->
  existsb is_go_heartbeat tr = false ->
  filter is_remove tr = [] /\ filter is_warn tr = [].
Proof.
  unfold_run. split_run.
  all: intros H; injection H as <- <-.
  all: intros Hhb; simpl in Hhb; try discriminate Hhb.
  all: split; reflexivity.
Qed.

Lemma Run_peer_context (flags : Flags) tr out :
  Run zeroConfig w flags = (tr, out) ->
  (PeerIP flags <> "" -> ~ In CallGetLocalIP tr)
  /\ forall c zone cluster ip port,
       In (CallNewPeerContext c zone cluster ip port) tr ->
       zone = Zone flags /\ cluster = KrakenCluster flags /\ port = PeerPort flags
       /\ (PeerIP flags <> "" -> ip = PeerIP flags)
       /\ (PeerIP flags = "" -> netutil_GetLocalIP w = inr ip).
Proof.
  unfold_run. split_run.
  all: intros H; injection H as <- <-.
  all: rewrite ?String.eqb_eq, ?String.eqb_neq in *.
  all: split;
    [ intros Hip Hin; simpl in Hin;
      repeat (destruct Hin as [Hin | Hin]; [first [discriminate Hin | congruence] |]);
      contradiction
    | intros xc xzone xcluster xip xport Hin; simpl in Hin;
      repeat (destruct Hin as [Hin | Hin];
              [first [discriminate Hin
                     | injection Hin as <- <- <- <- <-; simpl;
                       repeat split; congruence] |]);
      contradiction ].
Qed.
End MoreRunFacts.

Lemma is_go_heartbeat_true {Config : Type} (ev : event Config) :
  is_go_heartbeat ev = true <-> ev = Go GoHeartbeat.
Proof.
  split.
  - destruct ev as [| | | g | | | | | | | | | | | | | | | | |]; simpl;
      try discriminate. destruct g; simpl; try discriminate. reflexivity.
  - intros ->. reflexivity.
Qed.

Lemma heartbeat_started_iff {Config : Type} (tr : list (event Config)) :
  existsb is_go_heartbeat tr = true <-> In (Go GoHeartbeat) tr.
Proof.
  rewrite existsb_exists. split.
  - intros [ev [Hin Hev]]. apply is_go_heartbeat_true in Hev. subst. exact Hin.
  - intros Hin. exists (Go GoHeartbeat). split; [exact Hin | reflexivity].
Qed.

(** X1: the two deferred calls of [Run], [zlog.Sync()] and [closer.Close()],
    never run.  [Run] panics only before they are deferred, and every later
    end is [log.Fatal] or [log.Fatalf], which exits the process without
    running deferred calls. *)
Theorem Run_never_runs_deferred_calls {Config : Type} (zeroConfig : Config)
    (w : World Config) (flags : Flags) (d : deferred_call) :
  ~ In (RunDeferred d) (fst (Run zeroConfig w flags)).
Proof.
  destruct (Run zeroConfig w flags) as [tr out] eqn:HRun. simpl.
  pose proof (Run_no_deferred zeroConfig w flags tr out HRun) as Hall.
  rewrite forallb_forall in Hall. intros Hin.
  specialize (Hall _ Hin). discriminate.
Qed.

(** X2: every collaborator is built from one and the same configuration, the
    one that results from loading [ConfigFile] and then, if it is named,
    [SecretsFile] on top of it: no call of [Run] sees the configuration
    before the secrets are in. *)
Theorem Run_builds_from_final_config {Config : Type} (zeroConfig : Config)
    (w : World Config) (flags : Flags) (ev : event Config) (c : Config) :
  In ev (fst (Run zeroConfig w flags)) ->
  config_of ev = Some c ->
  final_config zeroConfig w flags = Some c.
Proof.
  destruct (Run zeroConfig w flags) as [tr out] eqn:HRun. simpl.
  apply (Run_config_of zeroConfig w flags tr out HRun).
Qed.

Lemma Run_builds_from_final_config_witness :
  final_config 0 example_world example_flags = Some 2.
Proof.
  apply (Run_builds_from_final_config 0 example_world example_flags
           (CallMetricsNew 2 "prod01-zone1") 2).
  - simpl. do 3 right. left. reflexivity.
  - reflexivity.
Defined.



(** X4: the old nginx logs are wiped only by a fully built agent, and wiping
    them cannot stop it.  When the heartbeat goroutine was started, [Run]
    calls [os.Remove] on both files, in order, whatever the first call
    answers, and logs one warning for each removal that failed with an error
    other than not-exist; when it was not started, nothing is removed and no
    warning is logged. *)
Theorem Run_wipes_old_logs {Config : Type} (zeroConfig : Config)
    (w : World Config) (flags : Flags) :
  (In (Go GoHeartbeat) (fst (Run zeroConfig w flags)) ->
   filter is_remove (fst (Run zeroConfig w flags)) = List.map CallRemove old_nginx_logs
   /\ List.length (filter is_warn (fst (Run zeroConfig w flags)))
      = List.length (filter (removal_warns w) old_nginx_logs))
  /\ (~ In (Go GoHeartbeat) (fst (Run zeroConfig w flags)) ->
      filter is_remove (fst (Run zeroConfig w flags)) = []
      /\ filter is_warn (fst (Run zeroConfig w flags)) = []).
Proof.
  destruct (Run zeroConfig w flags) as [tr out] eqn:HRun. simpl. split.
  - intros Hin. apply heartbeat_started_iff in Hin.
    destruct (Run_heartbeat_started zeroConfig w flags tr out HRun Hin)
      as [_ [_ [c [_ [_ [_ [Hrm Hwarn]]]]]]].
    split; assumption.
  - intros Hnot. apply (Run_not_started zeroConfig w flags tr out HRun).
    destruct (existsb is_go_heartbeat tr) eqn:Hhb; [| reflexivity].
    apply heartbeat_started_iff in Hhb. contradiction.
Qed.

Lemma Run_wipes_old_logs_witness :
  List.length (filter is_warn (fst (Run 0 healthy_world example_flags))) = 1
  /\ filter is_remove (fst (Run 0 example_world example_flags)) = [].
Proof.
  split.
  - assert (Hin : In (Go GoHeartbeat) (fst (Run 0 healthy_world example_flags))).
    { apply heartbeat_started_iff. reflexivity. }
    exact (proj2 (proj1 (Run_wipes_old_logs 0 healthy_world example_flags) Hin)).
  - apply (proj2 (Run_wipes_old_logs 0 example_world example_flags)).
    intros Hin. apply heartbeat_started_iff in Hin. discriminate Hin.
Defined.

(** X5: the peer announces the IP of the [PeerIP] flag when it is set, and
    the local IP otherwise.  [netutil.GetLocalIP] is not called when [PeerIP]
    is set; and the peer context is created with the zone, cluster and port
    of the flags and with [PeerIP], or with the IP that [GetLocalIP] answered
    when [PeerIP] is empty. *)
Theorem Run_peer_context_address {Config : Type} (zeroConfig : Config)
    (w : World Config) (flags : Flags) :
  (PeerIP flags <> "" -> ~ In CallGetLocalIP (fst (Run zeroConfig w flags)))
  /\ forall c zone cluster ip port,
       In (CallNewPeerContext c zone cluster ip port) (fst (Run zeroConfig w flags)) ->
       zone = Zone flags /\ cluster = KrakenCluster flags /\ port = PeerPort flags
       /\ (PeerIP flags <> "" -> ip = PeerIP flags)
       /\ (PeerIP flags = "" -> netutil_GetLocalIP w = inr ip).
Proof.
  destruct (Run zeroConfig w flags) as [tr out] eqn:HRun. simpl.
  apply (Run_peer_context zeroConfig w flags tr out HRun).
Qed.

Lemma Run_peer_context_address_witness :
  netutil_GetLocalIP example_world = inr "10.0.0.1".
Proof.
  refine (proj2 (proj2 (proj2 (proj2
            (proj2 (Run_peer_context_address 0 example_world example_flags)
               2 "zone1" "prod01-zone1" "10.0.0.1" 16001%Z _)))) eq_refl).
  simpl. do 6 right. left. reflexivity.
Defined.

(** X6: [Run] panics only while it validates the flags and loads the
    configuration.  If it ends in a panic, all it has done is to load at most
    two files; if it ends in a fatal log, the ports were set, both loads
    succeeded and the logger was configured from the final configuration. *)
Theorem Run_panics_only_while_loading {Config : Type} (zeroConfig : Config)
    (w : World Config) (flags : Flags) :
  (forall v, snd (Run zeroConfig w flags) = Panicked v ->
     (forall ev, In ev (fst (Run zeroConfig w flags)) -> is_load ev = true)
     /\ List.length (fst (Run zeroConfig w flags)) <= 2)
  /\ (forall msg, snd (Run zeroConfig w flags) = Exited msg ->
        ports_set flags
        /\ exists c, final_config zeroConfig w flags = Some c
                     /\ In (CallConfigureLogger c) (fst (Run zeroConfig w flags))).
Proof.
  destruct (Run zeroConfig w flags) as [tr out] eqn:HRun. simpl.
  destruct (Run_panic_or_exit zeroConfig w flags tr out HRun) as [Hpanic Hexit].
  split; [| exact Hexit].
  intros v Hv. destruct (Hpanic v Hv) as [Hall Hlen].
  split; [| exact Hlen]. apply forallb_forall. exact Hall.
Qed.

Lemma Run_panics_only_while_loading_witness :
  List.length (fst (Run 0 example_world flags_with_missing_config)) <= 2
  /\ ports_set example_flags.
Proof.
  split.
  - exact (proj2 (proj1 (Run_panics_only_while_loading 0 example_world
                           flags_with_missing_config)
                    (PanicError "no such file") eq_refl)).
  - exact (proj1 (proj2 (Run_panics_only_while_loading 0 example_world example_flags)
                    "Error building tracker upstream: no trackers" eq_refl)).
Defined.

(** X7: [Run] starts its goroutines in a fixed order and each at most once.
    The goroutines of any run are an initial part of: the version emitter,
    the tracker monitor, the agent server on [":" ++ AgentServerPort], the
    registry, the heartbeat. *)
Theorem Run_goroutines_in_order {Config : Type} (zeroConfig : Config)
    (w : World Config) (flags : Flags) :
  exists rest,
    goroutines (fst (Run zeroConfig w flags)) ++ rest = all_goroutines flags.
Proof.
  destruct (Run zeroConfig w flags) as [tr out] eqn:HRun. simpl.
  apply (Run_goroutines_prefix zeroConfig w flags tr out HRun).
Qed.

(** ** 2. [ParseFlags] *)

Section ParseFlagsFacts.

Local Arguments String.eqb : simpl never.

Lemma ParseFlags_flag_Parse (settings : list (string * flag_value)) :
  ParseFlags settings = flag_Parse agent_flagset settings zeroFlags.
Proof. reflexivity. Qed.

Lemma apply_setting_get (n : string) (v : flag_value) (f0 f1 : Flags) :
  apply_setting agent_flagset (n, v) f0 = Parsed f1 ->
  forall name t d, In (name, t, d) agent_flags ->
    suits t (get_target t f0) = true ->
    get_target t f1 = (if String.eqb name n then v else get_target t f0)
    /\ suits t (get_target t f1) = true.
Proof.
  intros H name t d Hin.
  unfold apply_setting, find_flag, agent_flagset in H. simpl in H.
  split_names H n; simpl in H.
  all: destruct v as [s | z]; simpl in H; try discriminate H.
  all: try (destruct (is_int z) eqn:Hz; simpl in H; try discriminate H).
  all: injection H as <-.
  all: simpl in Hin.
  all: repeat (destruct Hin as [Hin | Hin];
               [injection Hin as <- <- <-; intros Hs;
                rewrite ?E, ?E0, ?E1, ?E2, ?E3, ?E4, ?E5, ?E6;
                split; first [reflexivity | exact Hs | exact Hz] |]).
  all: contradiction.
Qed.

Lemma zeroFlags_suits name t d :
  In (name, t, d) agent_flags -> get_target t zeroFlags = d /\ suits t d = true.
Proof.
  simpl. intros Hin.
  repeat (destruct Hin as [Hin | Hin]; [injection Hin as <- <- <-; split; reflexivity |]).
  contradiction.
Qed.

Lemma flag_Parse_get (settings : list (string * flag_value)) :
  forall f0 f,
    flag_Parse agent_flagset settings f0 = Parsed f ->
    forall name t d, In (name, t, d) agent_flags ->
      suits t (get_target t f0) = true ->
      get_target t f
      = match last_setting name settings with
        | Some v => v
        | None => get_target t f0
        end
      /\ suits t (get_target t f) = true.
Proof.
  induction settings as [| [n v] rest IH]; intros f0 f H name t d Hin Hs.
  - simpl in H. injection H as <-. simpl. auto.
  - simpl in H.
    destruct (apply_setting agent_flagset (n, v) f0) as [f1 | msg |] eqn:Hset;
      simpl in H; try discriminate H.
    destruct (apply_setting_get n v f0 f1 Hset name t d Hin Hs) as [Hget Hs1].
    destruct (IH f1 f H name t d Hin Hs1) as [Hrest Hsf].
    split; [| exact Hsf].
    rewrite Hrest. simpl.
    destruct (last_setting name rest); [reflexivity |].
    rewrite Hget. destruct (String.eqb name n); reflexivity.
Qed.

Lemma apply_setting_never_panics fs setting f0 msg :
  apply_setting fs setting f0 <> FlagPanic msg.
Proof.
  unfold apply_setting.
  destruct (find_flag (fst setting) fs) as [e |]; [| discriminate].
  destruct (set_target (fe_target e) (snd setting) f0); discriminate.
Qed.

Lemma flag_Parse_never_panics fs settings : forall f0 msg,
  flag_Parse fs settings f0 <> FlagPanic msg.
Proof.
  induction settings as [| setting rest IH]; intros f0 msg; simpl; [discriminate |].
  destruct (apply_setting fs setting f0) as [f1 | msg' |] eqn:Hset; simpl.
  - apply IH.
  - exfalso. exact (apply_setting_never_panics fs setting f0 msg' Hset).
  - discriminate.
Qed.

Lemma find_agent_flag (n : string) :
  match find_flag n agent_flagset with
  | Some e => exists d, In (n, fe_target e, d) agent_flags
  | None => forall t d, ~ In (n, t, d) agent_flags
  end.
Proof.
  unfold find_flag, agent_flagset. simpl.
  repeat match goal with
         | |- context [String.eqb ?a n] =>
             let E := fresh "E" in
             destruct (String.eqb a n) eqn:E;
             [apply String.eqb_eq in E; subst n; simpl; eexists; simpl; tauto |]
         end.
  intros t d Hin. simpl in Hin.
  repeat (destruct Hin as [Hin | Hin];
          [injection Hin as Hn _ _; subst n; simpl in *; discriminate |]).
  contradiction.
Qed.

Lemma set_target_suits t v f0 :
  (exists f1, set_target t v f0 = Some f1) <-> suits t v = true.
Proof.
  destruct t, v; simpl; try (split; [intros [f1 H] |]; discriminate).
  - split; [reflexivity | eauto].
  - destruct (is_int n); split; try reflexivity; try discriminate; eauto.
    intros [f1 H]. discriminate.
Qed.

Lemma agent_flags_functional n t d t' d' :
  In (n, t, d) agent_flags -> In (n, t', d') agent_flags -> t = t' /\ d = d'.
Proof.
  simpl. intros H H'.
  repeat (destruct H as [H | H]; [injection H as <- <- <- |]); try contradiction.
  all: repeat (destruct H' as [H' | H'];
               [first [discriminate H' | injection H' as <- <-; split; reflexivity] |]).
  all: contradiction.
Qed.

Lemma apply_setting_accepts n v f0 :
  (exists f1, apply_setting agent_flagset (n, v) f0 = Parsed f1)
  <-> exists t d, In (n, t, d) agent_flags /\ suits t v = true.
Proof.
  unfold apply_setting. cbn [fst snd].
  pose proof (find_agent_flag n) as Hfind.
  destruct (find_flag n agent_flagset) as [e |].
  - destruct Hfind as [d Hd]. split.
    + intros [f1 H]. exists (fe_target e), d. split; [exact Hd |].
      apply (set_target_suits (fe_target e) v f0).
      destruct (set_target (fe_target e) v f0) as [f |]; [eauto | discriminate].
    + intros [t [d' [Hin Hs]]].
      destruct (agent_flags_functional n t d' (fe_target e) d Hin Hd) as [<- _].
      apply (set_target_suits t v f0) in Hs. destruct Hs as [f1 ->]. eauto.
  - split.
    + intros [f1 H]. discriminate.
    + intros [t [d [Hin _]]]. exfalso. exact (Hfind t d Hin).
Qed.

Lemma flag_Parse_accepts settings : forall f0,
  (exists f, flag_Parse agent_flagset settings f0 = Parsed f)
  <-> (forall n v, In (n, v) settings ->
         exists t d, In (n, t, d) agent_flags /\ suits t v = true).
Proof.
  induction settings as [| [n v] rest IH]; intros f0.
  - simpl. split; [intros _ n v [] | eauto].
  - cbn [flag_Parse]. split.
    + intros [f H].
      destruct (apply_setting agent_flagset (n, v) f0) as [f1 | msg |] eqn:Hset;
        simpl in H; try discriminate H.
      intros n' v' [Heq | Hin].
      * injection Heq as <- <-. apply (apply_setting_accepts n v f0). eauto.
      * apply (proj1 (IH f1)); eauto.
    + intros Hall.
      destruct (proj2 (apply_setting_accepts n v f0)) as [f1 Hset].
      { apply Hall. left. reflexivity. }
      rewrite Hset. simpl. apply IH. intros n' v' Hin. apply Hall. right. exact Hin.
Qed.

End ParseFlagsFacts.

(** X8: after [ParseFlags], every flag holds the last value the command line
    gives it, and its default when the command line does not mention it: ""
    for the five string flags, 0 for the three ports.  A port it returns fits
    a Go [int]. *)
Theorem ParseFlags_last_setting_wins (settings : list (string * flag_value))
    (flags : Flags) (name : string) (t : flag_target) (d : flag_value) :
  ParseFlags settings = Parsed flags ->
  In (name, t, d) agent_flags ->
  get_target t flags
  = match last_setting name settings with
    | Some v => v
    | None => d
    end
  /\ suits t (get_target t flags) = true.
Proof.
  rewrite ParseFlags_flag_Parse. intros Hparse Hin.
  destruct (zeroFlags_suits name t d Hin) as [Hd Hs].
  rewrite <- Hd in Hs.
  destruct (flag_Parse_get settings zeroFlags flags Hparse name t d Hin Hs) as [Hget Hsf].
  rewrite Hd in Hget. auto.
Qed.

Lemma ParseFlags_last_setting_wins_witness :
  ParseFlags example_settings = Parsed example_parsed_flags
  /\ get_target (IntTarget VarPeerPort) example_parsed_flags = IntValue 16005
  /\ get_target (StringTarget VarZone) example_parsed_flags = StringValue "".
Proof.
  assert (Hparse : ParseFlags example_settings = Parsed example_parsed_flags)
    by reflexivity.
  split; [exact Hparse |]. split.
  - apply (ParseFlags_last_setting_wins example_settings example_parsed_flags
             "peer-port" (IntTarget VarPeerPort) (IntValue 0) Hparse).
    right. left. reflexivity.
  - apply (ParseFlags_last_setting_wins example_settings example_parsed_flags
             "zone" (StringTarget VarZone) (StringValue "") Hparse).
    do 5 right. left. reflexivity.
Defined.

(** X9: [ParseFlags] never panics, no flag being defined twice, and it
    returns flags exactly when every setting of the command line names one
    of the eight flags of the agent and carries a value of its kind, any text
    for a string flag and an integer that fits an [int] for a port;
    otherwise it ends the process. *)
Theorem ParseFlags_accepts_exactly_the_agent_flags (settings : list (string * flag_value)) :
  (forall msg, ParseFlags settings <> FlagPanic msg)
  /\ ((exists flags, ParseFlags settings = Parsed flags)
      <-> (forall n v, In (n, v) settings ->
             exists t d, In (n, t, d) agent_flags /\ suits t v = true))
  /\ ((forall flags, ParseFlags settings <> Parsed flags) ->
      ParseFlags settings = FlagExit).
Proof.
  rewrite ParseFlags_flag_Parse. split; [| split].
  - intros msg. apply flag_Parse_never_panics.
  - apply flag_Parse_accepts.
  - intros Hnot.
    destruct (flag_Parse agent_flagset settings zeroFlags) as [f | msg |] eqn:H.
    + exfalso. exact (Hnot f eq_refl).
    + exfalso. exact (flag_Parse_never_panics agent_flagset settings zeroFlags msg H).
    + reflexivity.
Qed.

Lemma ParseFlags_accepts_exactly_the_agent_flags_witness :
  ParseFlags [("port", IntValue 80)] = FlagExit
  /\ exists t d, In ("config", t, d) agent_flags /\ suits t (StringValue "agent.yaml") = true.
Proof.
  split.
  - apply (proj2 (proj2 (ParseFlags_accepts_exactly_the_agent_flags [("port", IntValue 80)]))).
    intros flags H. discriminate H.
  - assert (Hparse : ParseFlags example_settings = Parsed example_parsed_flags)
      by reflexivity.
    apply (proj1 (proj1 (proj2 (ParseFlags_accepts_exactly_the_agent_flags example_settings)))
             (ex_intro _ example_parsed_flags Hparse)
             "config" (StringValue "agent.yaml")).
    right. left. reflexivity.
Defined.

(** X10: the three port flags are mandatory.  If the command line leaves one
    of [peer-port], [agent-server-port] or [agent-registry-port] out, or sets
    it to 0 last, then [Run] on the flags [ParseFlags] returns panics with one
    of the three port messages before doing anything. *)
Theorem ParseFlags_ports_are_mandatory {Config : Type} (zeroConfig : Config)
    (w : World Config) (settings : list (string * flag_value)) (flags : Flags)
    (name : string) :
  ParseFlags settings = Parsed flags ->
  In name ["peer-port"; "agent-server-port"; "agent-registry-port"] ->
  last_setting name settings = None \/ last_setting name settings = Some (IntValue 0) ->
  fst (Run zeroConfig w flags) = []
  /\ exists msg, In msg port_panics
                 /\ snd (Run zeroConfig w flags) = Panicked (PanicString msg).
Proof.
  intros Hparse Hname Hlast.
  assert (Hzero : PeerPort flags = 0%Z \/ AgentServerPort flags = 0%Z
                  \/ AgentRegistryPort flags = 0%Z).
  { destruct Hname as [<- | [<- | [<- | []]]].
    -
      pose proof (proj1 (flag_Parse_get settings zeroFlags flags Hparse "peer-port"
                           (IntTarget VarPeerPort) (IntValue 0)
                           (or_intror (or_introl eq_refl)) eq_refl)) as H.
      left. destruct Hlast as [Hl | Hl]; rewrite Hl in H; simpl in H; congruence.
    -
      pose proof (proj1 (flag_Parse_get settings zeroFlags flags Hparse "agent-server-port"
                           (IntTarget VarAgentServerPort) (IntValue 0)
                           (or_intror (or_intror (or_introl eq_refl))) eq_refl)) as H.
      right. left. destruct Hlast as [Hl | Hl]; rewrite Hl in H; simpl in H; congruence.
    -
      pose proof (proj1 (flag_Parse_get settings zeroFlags flags Hparse "agent-registry-port"
                           (IntTarget VarAgentRegistryPort) (IntValue 0)
                           (or_intror (or_intror (or_intror (or_introl eq_refl)))) eq_refl)) as H.
      right. right. destruct Hlast as [Hl | Hl]; rewrite Hl in H; simpl in H; congruence. }
  destruct (Run zeroConfig w flags) as [tr out] eqn:HRun. simpl.
  exact (proj1 (Run_port_checks zeroConfig w flags tr out HRun) Hzero).
Qed.

Lemma ParseFlags_ports_are_mandatory_witness :
  ParseFlags example_settings = Parsed example_parsed_flags
  /\ fst (Run 0 example_world example_parsed_flags) = [].
Proof.
  assert (Hparse : ParseFlags example_settings = Parsed example_parsed_flags)
    by reflexivity.
  split; [exact Hparse |].
  apply (ParseFlags_ports_are_mandatory 0 example_world example_settings
           example_parsed_flags "agent-server-port" Hparse).
  - right. left. reflexivity.
  - left. reflexivity.
Defined.

(** ** 3. [heartbeat] *)

Section HeartbeatRate.

Context {Scope : Type}.
Variable stats : Scope.

Lemma heartbeat_log_prefix_rate (n : nat) : forall p : list observation,
  is_prefix p (heartbeat_log stats n) ->
  (10 * Second * (Z.of_nat (increments p) - 1) <= slept p
   /\ slept p <= 10 * Second * Z.of_nat (increments p))%Z
  /\ forall o, In o p -> o = SawInc stats "heartbeat" 1 \/ o = SawSleep (10 * Second).
Proof.
  unfold increments.
  induction n as [| n IH]; intros p Hp.
  - destruct p; cbn [is_prefix heartbeat_log] in Hp; [| contradiction].
    cbn [filter List.length slept Z.of_nat]. unfold Second. split; [lia | intros o []].
  - destruct p as [| a [| b p]]; cbn [is_prefix heartbeat_log] in Hp.
    + cbn [filter List.length slept Z.of_nat]. unfold Second. split; [lia | intros o []].
    + destruct Hp as [-> _]. cbn [filter is_inc List.length slept]. unfold Second.
      split; [lia |]. intros o [<- | []]. left. reflexivity.
    + destruct Hp as [-> [-> Hp]]. destruct (IH p Hp) as [[Hlo Hhi] Hall].
      cbn [filter is_inc slept List.length]. split.
      * unfold Second in *. lia.
      * intros o [<- | [<- | Ho]]; auto.
Qed.
End HeartbeatRate.

(** X11: the heartbeat counter measures the time the agent has been up.  At
    any instant of the first [n] iterations, what was observed so far is
    nothing but increments by 1 of the counter "heartbeat" of the scope
    [heartbeat] was given and sleeps of ten seconds, and the number of
    increments is the time slept divided by ten seconds, or one more. *)
Theorem heartbeat_counts_ten_second_periods {Scope : Type} (stats : Scope) (n : nat)
    (p : list observation) :
  is_prefix p (heartbeat_log stats n) ->
  eutt eq (interp_state observe_calls (heartbeat_iterations stats n) [])
          (Ret (heartbeat_log stats n, tt))
  /\ (10 * Second * (Z.of_nat (increments p) - 1) <= slept p
      /\ slept p <= 10 * Second * Z.of_nat (increments p))%Z
  /\ forall o, In o p -> o = SawInc stats "heartbeat" 1 \/ o = SawSleep (10 * Second).
Proof.
  intros Hp. split.
  - exact (heartbeat_iterations_log stats n []).
  - apply (heartbeat_log_prefix_rate stats n p Hp).
Qed.

Lemma heartbeat_counts_ten_second_periods_witness :
  (slept [SawInc tt "heartbeat" 1; SawSleep (10 * Second); SawInc tt "heartbeat" 1]
   <= 10 * Second * 2)%Z.
Proof.
  refine (proj2 (proj1 (proj2
            (heartbeat_counts_ten_second_periods tt 2
               [SawInc tt "heartbeat" 1; SawSleep (10 * Second); SawInc tt "heartbeat" 1]
               _)))).
  simpl. tauto.
Defined.

(** ** 4. The contracts *)

(** X12: every operation of the [Store] and [Executor] contracts can report
    a failure and takes at most a task.  Its last result is an [error], and
    it takes no argument or one [Task]; the seven operations have pairwise
    distinct names, so that one type can implement both contracts. *)
Theorem contracts_report_errors :
  (forall m, In m (Store ++ Executor) ->
     List.last (m_results m) TTask = TError
     /\ (m_params m = [] \/ m_params m = [TTask]))
  /\ NoDup (method_names (Store ++ Executor))
  /\ implements (Store ++ Executor) Store = true
  /\ implements (Store ++ Executor) Executor = true.
Proof.
  split; [| split; [| split; reflexivity]].
  - intros m Hin. simpl in Hin.
    repeat (destruct Hin as [<- | Hin]; [simpl; auto |]). contradiction.
  - simpl. repeat constructor; simpl; intuition discriminate.
Qed.

Lemma contracts_report_errors_witness :
  List.last (m_results (Method "MarkDone" [TTask] [TError])) TTask = TError.
Proof.
  refine (proj1 (proj1 contracts_report_errors (Method "MarkDone" [TTask] [TError]) _)).
  simpl. tauto.
Defined.
